(** * Github-agent: search, clone and report pipeline of [github.agent.py]

    A shallow embedding of the collector script.  Python [str] values are
    sequences of Unicode code points, Python [int] values are [Z], the
    filesystem is a finite set of existing paths, and everything the script
    obtains from the outside (HTTP responses, the [git] subprocess, the
    outcome of a best-effort [rmtree], the Unicode character table behind
    the regex class [\w]) is an explicit parameter. *)

From Stdlib Require Import ZArith NArith List Ascii String Lia.
From Stdlib Require Import Permutation Sorted DecimalString.
From stdpp Require Import base decidable countable strings list gmap sets.

Local Open Scope Z_scope.

(** ** Python strings *)

Module PyStr.

(** A code point, and a [str]: an immutable sequence of code points. *)
Definition char := N.
Definition str := list char.

Definition bytes_of (s : string) : list N :=
  map N_of_ascii (list_ascii_of_string s).

(** Source literals are written as UTF-8 in this file; [utf8_decode]
    turns the bytes of a literal into the code points Python sees. *)
Fixpoint utf8_decode (bs : list N) : str :=
  match bs with
  | [] => []
  | b :: rest =>
      if (b <? 128)%N then b :: utf8_decode rest
      else if (b <? 224)%N then
        match rest with
        | b1 :: r => ((b - 192) * 64 + (b1 - 128))%N :: utf8_decode r
        | _ => []
        end
      else if (b <? 240)%N then
        match rest with
        | b1 :: b2 :: r =>
            ((b - 224) * 4096 + (b1 - 128) * 64 + (b2 - 128))%N
              :: utf8_decode r
        | _ => []
        end
      else
        match rest with
        | b1 :: b2 :: b3 :: r =>
            ((b - 240) * 262144 + (b1 - 128) * 4096
             + (b2 - 128) * 64 + (b3 - 128))%N :: utf8_decode r
        | _ => []
        end
  end.

Definition py (s : string) : str := utf8_decode (bytes_of s).

Definition chr (s : string) : char :=
  match py s with c :: _ => c | [] => 0%N end.

(** [s.startswith(prefix)] *)
Fixpoint startswith (pre s : str) : bool :=
  match pre, s with
  | [], _ => true
  | _ :: _, [] => false
  | a :: pre', b :: s' => (a =? b)%N && startswith pre' s'
  end.

(** [s.replace(old, new, 1)] for a non-empty [old]: the leftmost
    occurrence of [old] is replaced, the rest of [s] is kept. *)
Fixpoint replace_first (old new s : str) : str :=
  if startswith old s then new ++ drop (length old) s
  else match s with
       | [] => []
       | c :: s' => c :: replace_first old new s'
       end.

(** [str(n)] for an [int]: decimal digits, a leading minus sign for
    negative numbers. *)
Definition str_of_int (n : Z) : str :=
  bytes_of (NilZero.string_of_int (Z.to_int n)).

(** [c * n] for a one-character string. *)
Definition repeat_str (s : str) (n : nat) : str :=
  concat (replicate n s).

(** The line feed that ends every line the script writes. *)
Definition nl : str := [10%N].

(** Truthiness of a [str]: the empty string is falsy. *)
Definition truthy (s : str) : bool :=
  match s with [] => false | _ :: _ => true end.

End PyStr.

Import PyStr.

(** ** Identifier sanitization: [clean_filename] *)

Module Sanitize.

(** The pieces of a regex character class that [clean_filename] uses:
    the shorthand [\w] and literal characters. *)
Inductive class_item :=
| ClassWord
| ClassLit (c : char).

Section WithUnicodeTable.

(** [isalnum c] is Python's [str.isalnum] on the one-character string
    [c], read from the interpreter's Unicode database. *)
Variable isalnum : char -> bool.

(** [\w] on a [str] pattern: alphanumeric or the underscore. *)
Definition is_word (c : char) : bool :=
  isalnum c || (c =? chr "_")%N.

Definition item_matches (c : char) (it : class_item) : bool :=
  match it with
  | ClassWord => is_word c
  | ClassLit d => (c =? d)%N
  end.

(** A bracket expression, negated when [neg] is set. *)
Definition class_matches (neg : bool) (items : list class_item)
    (c : char) : bool :=
  xorb neg (existsb (item_matches c) items).

(** [re.sub(cls, repl, text)] where the pattern is a single character
    class: every character the class matches is replaced by [repl]. *)
Fixpoint re_sub_class (neg : bool) (items : list class_item)
    (repl : str) (text : str) : str :=
  match text with
  | [] => []
  | c :: rest =>
      (if class_matches neg items c then repl else [c])
        ++ re_sub_class neg items repl rest
  end.

(** [re.sub(r'[^\w\-_]', '_', text)] *)
Definition clean_filename (text : str) : str :=
  re_sub_class true
    [ClassWord; ClassLit (chr "-"); ClassLit (chr "_")]
    (py "_") text.

(** The characters the specification keeps: alphanumeric, underscore,
    hyphen. *)
Definition kept (c : char) : bool :=
  isalnum c || (c =? chr "_")%N || (c =? chr "-")%N.

Definition sanitize_char (c : char) : char :=
  if kept c then c else chr "_".

End WithUnicodeTable.

(** The ASCII part of the Unicode table, used for concrete runs. *)
Definition ascii_isalnum (c : char) : bool :=
  ((48 <=? c) && (c <=? 57) || (65 <=? c) && (c <=? 90)
   || (97 <=? c) && (c <=? 122))%N.

End Sanitize.


(** ** Search: [search_github] *)

Module Search.

(** One element of the [items] array of a search response in which the
    script finds every field it reads. *)
Record owner_obj := { login : str }.

Record api_item := {
  item_name : str;
  item_full_name : str;
  item_clone_url : str;
  stargazers_count : Z;
  item_owner : owner_obj
}.

(** One element of the [items] array as the service sends it: each key
    the script reads may be missing ([None]), and ["owner"] may be missing
    or [null] ([None]). *)
Record json_owner := { json_login : option str }.

Record json_item := {
  json_name : option str;
  json_full_name : option str;
  json_clone_url : option str;
  json_stargazers_count : option Z;
  json_owner_obj : option json_owner
}.

(** The lookups [item["name"]], [item["full_name"]], [item["clone_url"]],
    [item["stargazers_count"]] and [item["owner"]["login"]], in the order
    the script makes them; [None] when one of them raises ([KeyError], or
    [TypeError] on a [null] owner). *)
Definition read_item (item : json_item) : option api_item :=
  match json_name item, json_full_name item, json_clone_url item,
        json_stargazers_count item, json_owner_obj item with
  | Some n, Some f, Some u, Some s, Some o =>
      match json_login o with
      | Some l =>
          Some {| item_name := n; item_full_name := f; item_clone_url := u;
                  stargazers_count := s; item_owner := {| login := l |} |}
      | None => None
      end
  | _, _, _, _, _ => None
  end.

(** An element that carries every field. *)
Definition json_of (item : api_item) : json_item :=
  {| json_name := Some (item_name item);
     json_full_name := Some (item_full_name item);
     json_clone_url := Some (item_clone_url item);
     json_stargazers_count := Some (stargazers_count item);
     json_owner_obj := Some {| json_login := Some (login (item_owner item)) |}
  |}.

(** The elements of an array up to the first one that cannot be read. *)
Fixpoint readable (items : list json_item) : list api_item :=
  match items with
  | [] => []
  | item :: rest =>
      match read_item item with
      | Some item => item :: readable rest
      | None => []
      end
  end.

(** The dictionary appended to [repos_found]. *)
Record repo := {
  name : str;
  full_name : str;
  clone_url : str;
  stars : Z;
  owner : str
}.

Record params := {
  q : str;
  sort : str;
  order : str;
  per_page : Z;
  page : Z
}.

Record request := {
  req_url : str;
  req_headers : list (str * str);
  req_params : params;
  req_timeout : Z
}.

(** What [r.json()] and [data.get("items", [])] give: a body that is not
    a JSON object makes one of them raise; an object has an optional key
    ["items"], whose elements may lack fields. *)
Inductive json_body :=
| InvalidJson
| JsonObject (items : option (list json_item)).

(** [requests.get] either raises (timeout, DNS, connection reset) or
    returns a response with a status code and a body. *)
Inductive response :=
| RequestFailed
| Response (status_code : Z) (body : json_body).

(** How the [while] loop is left: by [return []] or by falling out of
    the loop with the accumulated list. *)
Inductive loop_exit :=
| Returned (result : list repo)
| Fell (repos_found : list repo).

Definition api_url : str := py "https://api.github.com/search/repositories".

Definition make_headers (token : str) : list (str * str) :=
  [(py "Accept", py "application/vnd.github+json");
   (py "User-Agent", py "Github-Agent-v2")]
  ++ (if truthy token
      then [(py "Authorization", py "token " ++ token)]
      else []).

Definition descriptor_of (item : api_item) : repo :=
  {| name := item_name item;
     full_name := item_full_name item;
     clone_url := item_clone_url item;
     stars := stargazers_count item;
     owner := login (item_owner item) |}.

(** [l[:stop]] *)
Definition slice_to {A} (l : list A) (stop : Z) : list A :=
  if stop <? 0
  then take (Z.to_nat (Z.of_nat (length l) + stop)) l
  else take (Z.to_nat stop) l.

(** [list.sort(key=lambda x: x['stars'], reverse=True)] is a stable
    sort: its result is the insertion sort below, which keeps elements
    of equal star count in their original order. *)
Fixpoint insert_by_stars (x : repo) (l : list repo) : list repo :=
  match l with
  | [] => [x]
  | y :: l' =>
      if stars x <? stars y then y :: insert_by_stars x l'
      else x :: y :: l'
  end.

Definition sort_by_stars_reverse (l : list repo) : list repo :=
  foldr insert_by_stars [] l.

Section WithApi.

Variable query : str.
Variable limit : Z.
Variable token : str.

(** The remote service: the response to each request. *)
Variable api : request -> response.

Definition make_request (page : Z) : request :=
  {| req_url := api_url;
     req_headers := make_headers token;
     req_params := {| q := query; sort := py "stars";
                      order := py "desc"; per_page := 100;
                      page := page |};
     req_timeout := 10 |}.

(** The [for item in items] loop with its [break]: the list as the loop
    leaves it, and whether it was left by an exception raised while a
    descriptor was built (the descriptors appended before stay in the
    list). *)
Fixpoint append_items (items : list json_item) (repos_found : list repo)
    : list repo * bool :=
  match items with
  | [] => (repos_found, false)
  | item :: rest =>
      match read_item item with
      | None => (repos_found, true)
      | Some item =>
          let repos_found := repos_found ++ [descriptor_of item] in
          if Z.of_nat (length repos_found) >=? limit
          then (repos_found, false)
          else append_items rest repos_found
      end
  end.

(** The [while len(repos_found) < limit] loop.  [sent] records the
    page requests issued so far; [fuel] bounds the iterations of the
    model, [None] meaning the bound was hit. *)
Fixpoint search_loop (fuel : nat) (page : Z) (repos_found : list repo)
    (sent : list request) : option (loop_exit * list request) :=
  if Z.of_nat (length repos_found) <? limit then
    match fuel with
    | O => None
    | S fuel' =>
        let req := make_request page in
        let sent := sent ++ [req] in
        match api req with
        | RequestFailed => Some (Fell repos_found, sent)
        | Response status_code body =>
            if status_code =? 401 then Some (Returned [], sent)
            else if status_code =? 403 then Some (Fell repos_found, sent)
            else if negb (status_code =? 200)
            then Some (Fell repos_found, sent)
            else
              match body with
              | InvalidJson => Some (Fell repos_found, sent)
              | JsonObject items =>
                  match default [] items with
                  | [] => Some (Fell repos_found, sent)
                  | items =>
                      let '(repos_found, raised) :=
                        append_items items repos_found in
                      if raised then Some (Fell repos_found, sent)
                      else
                        let page := page + 1 in
                        if page >? 10 then Some (Fell repos_found, sent)
                        else search_loop fuel' page repos_found sent
                  end
              end
        end
    end
  else Some (Fell repos_found, sent).

(** [search_github(query, limit, token)]: the returned list together
    with the page requests that were issued. *)
Definition search_github (fuel : nat)
    : option (list repo * list request) :=
  match search_loop fuel 1 [] [] with
  | None => None
  | Some (Returned result, sent) => Some (result, sent)
  | Some (Fell repos_found, sent) =>
      Some (slice_to (sort_by_stars_reverse repos_found) limit, sent)
  end.

(** The [items] array of a page: only a 200 response with a JSON body
    carries one. *)
Definition raw_page_items (r : response) : list json_item :=
  match r with
  | Response status_code (JsonObject items) =>
      if status_code =? 200 then default [] items else []
  | _ => []
  end.

(** The items of a page as the loop reads them: those of the array that
    stand before the first element it cannot read. *)
Definition page_items (r : response) : list api_item :=
  readable (raw_page_items r).

(** The number of further descriptors the loop still accepts. *)
Definition room (repos_found : list repo) : nat :=
  Z.to_nat (limit - Z.of_nat (length repos_found)).

(** All items the loop reads over the requests in [sent]. *)
Definition fetched_items (sent : list request) : list api_item :=
  flat_map (fun req => page_items (api req)) sent.


End WithApi.

Definition status_of (r : response) : option Z :=
  match r with
  | RequestFailed => None
  | Response status_code _ => Some status_code
  end.

(** A bound on the iterations still to come when the loop is at [page]. *)
Definition pages_left (page : Z) : nat := Z.to_nat (Z.max 1 (11 - page)).

(** Non-increasing popularity: [a] may stand before [b]. *)
Definition by_stars_desc (a b : repo) : Prop := stars b <= stars a.

End Search.

(** ** Clone: [clone_single_repo] *)

Module Clone.

Import Search.

(** A [pathlib.Path] as its sequence of components; the filesystem as
    the set of paths that exist. *)
Definition path := list str.

(** [str(p)] *)
Definition path_str (p : path) : str :=
  concat (map (fun part => py "/" ++ part) p).

(** [p.exists()] *)
Definition exists_ (p : path) (fs : gset path) : bool :=
  bool_decide (p ∈ fs).

(** The keyword arguments of [subprocess.run] that the script sets. *)
Record run_call := {
  args : list str;
  timeout : Z;
  check : bool;
  env : gmap str str
}.

(** How the child process ends: it exits with a status, runs past the
    timeout, or cannot be started at all. *)
Inductive run_result :=
| Exited (returncode : Z)
| TimeoutExpired
| LaunchFailed.

(** [subprocess.run] raises unless the child exits, and with
    [check=True] also when it exits with a non-zero status. *)
Definition raises (c : run_call) (r : run_result) : bool :=
  match r with
  | Exited returncode => check c && negb (returncode =? 0)
  | TimeoutExpired => true
  | LaunchFailed => true
  end.

(** The failures of a retrieval: the child cannot be started, runs past
    the timeout, or exits with a non-zero status. *)
Definition retrieval_fails (r : run_result) : Prop :=
  match r with
  | Exited returncode => returncode <> 0
  | TimeoutExpired => True
  | LaunchFailed => True
  end.

(** The state the function acts on: the filesystem and the log of
    subprocess invocations. *)
Record world := {
  fs : gset path;
  calls : list run_call
}.

Section WithOS.

Variable isalnum : char -> bool.
Variable WORK_DIR : path.
Variable environ : gmap str str.

(** The [git] child process: its result and the filesystem it leaves. *)
Variable subprocess_run : run_call -> gset path -> run_result * gset path.

(** [shutil.rmtree(p, ignore_errors=True)]: never raises; which paths
    are gone afterwards is decided by the operating system. *)
Variable rmtree_ignore_errors : path -> gset path -> gset path.

Definition folder_name (repo_info : repo) : str :=
  Sanitize.clean_filename isalnum
    (name repo_info ++ py "_" ++ owner repo_info).

Definition target_path (repo_info : repo) : path :=
  WORK_DIR ++ [folder_name repo_info].

Definition auth_url (repo_info : repo) (token : str) : str :=
  let clone_url := clone_url repo_info in
  if truthy token && startswith (py "https://github.com/") clone_url
  then replace_first (py "https://") (py "https://" ++ token ++ py "@")
         clone_url
  else clone_url.

Definition git_clone_call (repo_info : repo) (token : str) : run_call :=
  {| args := [py "git"; py "clone"; py "--depth"; py "1";
              auth_url repo_info token;
              path_str (target_path repo_info)];
     timeout := 180;
     check := true;
     env := <[py "GIT_TERMINAL_PROMPT" := py "0"]> environ |}.

(** [clone_single_repo(repo_info, token)] *)
Definition clone_single_repo (repo_info : repo) (token : str) (w : world)
    : option repo * world :=
  let target_path := target_path repo_info in
  if exists_ target_path (fs w) then (None, w)
  else
    let call := git_clone_call repo_info token in
    let '(result, fs1) := subprocess_run call (fs w) in
    let calls1 := calls w ++ [call] in
    if raises call result then
      let fs2 :=
        if exists_ target_path fs1
        then rmtree_ignore_errors target_path fs1
        else fs1 in
      (None, {| fs := fs2; calls := calls1 |})
    else
      let git_hidden := target_path ++ [py ".git"] in
      let fs2 :=
        if exists_ git_hidden fs1
        then rmtree_ignore_errors git_hidden fs1
        else fs1 in
      (Some repo_info, {| fs := fs2; calls := calls1 |}).

End WithOS.

End Clone.

(** ** Report: the success counter and the manifest of [main] *)

Module Report.

Import Search.

(** [if result: success_count += 1] over the futures in submission
    order; a descriptor dictionary is truthy, [None] is not. *)
Definition count_successes (results : list (option repo)) : Z :=
  foldl (fun success_count result =>
           match result with
           | Some _ => success_count + 1
           | None => success_count
           end) 0 results.

Definition report_line (r : repo) : str :=
  py "[" ++ str_of_int (stars r) ++ py "★] " ++ full_name r
    ++ py " -> " ++ clone_url r ++ nl.

(** The successive [f.write] calls on [_RAPPORT_DE_RECHERCHE.txt]. *)
Definition write_report (timestamp user_query : str) (user_limit : Z)
    (success_count : Z) (repos : list repo) : list str :=
  [ py "Rapport généré le " ++ timestamp ++ nl;
    py "Recherche : " ++ user_query ++ nl;
    py "Projets demandés : " ++ str_of_int user_limit ++ nl;
    py "Projets téléchargés : " ++ str_of_int success_count ++ nl;
    repeat_str (py "-") 30 ++ nl ]
  ++ map report_line repos.

(** Steps 4 and 5 of [main], from the results the futures deliver. *)
Definition report (timestamp user_query : str) (user_limit : Z)
    (repos : list repo) (results : list (option repo)) : list str :=
  write_report timestamp user_query user_limit
    (count_successes results) repos.

End Report.


(** ** Concrete inputs used by the examples below *)

Module Examples.

Import Search Clone.

Definition item (n : string) (o : string) (s : Z) : api_item :=
  {| item_name := py n;
     item_full_name := py o ++ py "/" ++ py n;
     item_clone_url :=
       py "https://github.com/" ++ py o ++ py "/" ++ py n ++ py ".git";
     stargazers_count := s;
     item_owner := {| login := py o |} |}.

Definition page_of (req : request) : Z := page (req_params req).


(** A first page with two repositories, then an invalid credential. *)
Definition api_401_on_page_2 (req : request) : response :=
  if page_of req =? 1
  then Response 200
         (JsonObject
            (Some (map json_of [item "low" "alice" 3; item "high" "bob" 9])))
  else Response 401 (JsonObject None).

(** A service that always has one more repository on every page. *)
Definition api_endless (req : request) : response :=
  Response 200
    (JsonObject (Some (map json_of [item "more" "carol" (page_of req)]))).

(** Three repositories out of star order on a single page. *)
Definition api_unsorted (req : request) : response :=
  if page_of req =? 1
  then Response 200
         (JsonObject (Some (map json_of [item "a" "o" 40; item "b" "o" 50;
                                         item "c" "o" 30])))
  else Response 200 (JsonObject (Some [])).

Definition hello : repo := descriptor_of (item "hello" "octocat" 7).
Definition low : repo := descriptor_of (item "low" "alice" 3).
Definition high : repo := descriptor_of (item "high" "bob" 9).

Definition work_dir : path := [py "tmp"; py "temp_repos"].

(** A [git] that creates the target directory and then fails. *)
Definition git_fails_midway (c : run_call) (fs : gset path)
    : run_result * gset path :=
  (Exited 128, fs ∪ {[ work_dir ++ [py "hello_octocat"] ]}).

(** A [git] that succeeds and leaves the checkout with its [.git]. *)
Definition git_succeeds (c : run_call) (fs : gset path)
    : run_result * gset path :=
  (Exited 0,
   fs ∪ {[ work_dir ++ [py "hello_octocat"] ]}
      ∪ {[ work_dir ++ [py "hello_octocat"; py ".git"] ]}).

(** A removal that works, and one that the system refuses. *)
Definition rmtree_works (p : path) (fs : gset path) : gset path :=
  filter (fun e => negb (bool_decide (p `prefix_of` e))) fs.

Definition rmtree_refused (p : path) (fs : gset path) : gset path := fs.

Definition empty_world : world := {| fs := ∅; calls := [] |}.

(** A workspace in which the target of [hello] is already there. *)
Definition cloned_world : world :=
  {| fs := {[ work_dir ++ [py "hello_octocat"] ]}; calls := [] |}.

End Examples.

(** ** The runs of the search loop, as a relation *)

Module Runs.

Import Search.

Section WithApi.

Variable query : str.
Variable limit : Z.
Variable token : str.
Variable api : request -> response.

(** How the loop is left at a page that brings no item: [return []] on
    status 401, [break] in every other case. *)
Definition stop_exit (r : response) (repos_found : list repo) : loop_exit :=
  match r with
  | Response status_code _ =>
      if status_code =? 401 then Returned [] else Fell repos_found
  | RequestFailed => Fell repos_found
  end.

(** [loop_run page repos_found new ex]: entered at [page] with
    [repos_found], the loop issues the requests [new] and is left by [ex]. *)
Inductive loop_run : Z -> list repo -> list request -> loop_exit -> Prop :=
| run_enough page repos_found :
    limit <= Z.of_nat (length repos_found) ->
    loop_run page repos_found [] (Fell repos_found)
| run_stop page repos_found :
    Z.of_nat (length repos_found) < limit ->
    raw_page_items (api (make_request query token page)) = [] ->
    loop_run page repos_found [make_request query token page]
      (stop_exit (api (make_request query token page)) repos_found)
| run_raise page repos_found repos_found' :
    Z.of_nat (length repos_found) < limit ->
    raw_page_items (api (make_request query token page)) <> [] ->
    append_items limit
      (raw_page_items (api (make_request query token page))) repos_found
    = (repos_found', true) ->
    loop_run page repos_found [make_request query token page]
      (Fell repos_found')
| run_ceiling page repos_found repos_found' :
    Z.of_nat (length repos_found) < limit ->
    raw_page_items (api (make_request query token page)) <> [] ->
    append_items limit
      (raw_page_items (api (make_request query token page))) repos_found
    = (repos_found', false) ->
    10 < page + 1 ->
    loop_run page repos_found [make_request query token page]
      (Fell repos_found')
| run_next page repos_found repos_found' new ex :
    Z.of_nat (length repos_found) < limit ->
    raw_page_items (api (make_request query token page)) <> [] ->
    append_items limit
      (raw_page_items (api (make_request query token page))) repos_found
    = (repos_found', false) ->
    page + 1 <= 10 ->
    loop_run (page + 1) repos_found' new ex ->
    loop_run page repos_found (make_request query token page :: new) ex.

(** What [search_github] returns after the loop was left by [ex]. *)
Definition result_of (ex : loop_exit) : list repo :=
  match ex with
  | Returned result => result
  | Fell repos_found => slice_to (sort_by_stars_reverse repos_found) limit
  end.

(** The page numbers [page], [page + 1], ... of [n] successive requests. *)
Definition pages_from (page : Z) (n : nat) : list Z :=
  map (fun i => page + Z.of_nat i) (seq 0 n).

(** Some request of [sent] was answered 401. *)
Definition answered_401 (sent : list request) : bool :=
  existsb (fun req => match api req with
                      | Response status_code _ => status_code =? 401
                      | RequestFailed => false
                      end) sent.

End WithApi.

End Runs.

(** ** The main program *)

Module Main.

Import Search Clone Report.

(** The first step of [main]: how the probe [git --version] ends. *)
Inductive probe :=
| ProbeExited (returncode : Z)
| ProbeNotFound
| ProbeOtherError.

(** [check_git_installed()]: only [FileNotFoundError] is caught; [None]
    stands for any other exception, which leaves the function. *)
Definition check_git_installed (p : probe) : option bool :=
  match p with
  | ProbeExited _ => Some true
  | ProbeNotFound => Some false
  | ProbeOtherError => None
  end.

(** How [main] ends: [sys.exit(code)], an exception that reaches the
    handler at the bottom of the script, or the normal end, with the lines
    written to the report and the name handed to [make_archive]. *)
Inductive main_result :=
| SysExit (code : Z)
| Unexpected
| Finished (report_lines : list str) (zip_filename : str).

Section WithWorld.

(** The interpreter's tables and [int()] on a [str] ([None] for
    [ValueError]). *)
Variable isalnum : char -> bool.
Variable isspace : char -> bool.
Variable py_int : str -> option Z.

Variable api : request -> response.
Variable WORK_DIR : path.
Variable environ : gmap str str.
Variable subprocess_run : run_call -> gset path -> run_result * gset path.
Variable rmtree_ignore_errors : path -> gset path -> gset path.

(** The state of the world met by the task submitted at each position. *)
Variable world_at : nat -> world.

(** [s.lstrip()] and [s.strip()] *)
Fixpoint lstrip (s : str) : str :=
  match s with
  | [] => []
  | c :: s' => if isspace c then lstrip s' else s
  end.

Definition strip (s : str) : str :=
  reverse (lstrip (reverse (lstrip s))).

(** The executor: one [clone_single_repo] per descriptor, the results
    read in the order of submission. *)
Definition pool_results (token : str) (repos : list repo)
    : list (option repo) :=
  imap (fun i r =>
          (clone_single_repo isalnum WORK_DIR environ subprocess_run
             rmtree_ignore_errors r token (world_at i)).1) repos.

Definition zip_filename (user_query timestamp : str) : str :=
  py "GITHUB_" ++ Sanitize.clean_filename isalnum user_query
    ++ py "_" ++ timestamp.

(** [main()], from the three lines typed by the user and the clock
    reading taken after the downloads.  Printing and the set-up, archiving
    and removal of the work directory are left out of the value. *)
Definition main (git : probe) (token_line query_line count_line : str)
    (timestamp : str) (fuel : nat) : option main_result :=
  match check_git_installed git with
  | None => Some Unexpected
  | Some false => Some (SysExit 1)
  | Some true =>
      let user_token := strip token_line in
      let user_query := strip query_line in
      if negb (truthy user_query) then Some (SysExit 1)
      else
        let user_limit :=
          match py_int (strip count_line) with
          | Some n => n
          | None => 10
          end in
        match search_github user_query user_limit user_token api fuel with
        | None => None
        | Some ([], _) => Some (SysExit 0)
        | Some (repos, _) =>
            let results := pool_results user_token repos in
            Some (Finished
                    (report timestamp user_query user_limit repos results)
                    (zip_filename user_query timestamp))
        end
  end.

End WithWorld.

(** The ASCII part of the tables, used for concrete runs. *)
Definition ascii_isspace (c : char) : bool :=
  ((c =? 32) || (9 <=? c) && (c <=? 13) || (28 <=? c) && (c <=? 31))%N.

End Main.

(** ** Further concrete inputs *)

Module Samples.

Import Search Clone.

(** Two repositories of one owner whose names differ in one character
    that sanitization maps to an underscore. *)
Definition dotted : repo := descriptor_of (Examples.item "my.repo" "bob" 5).
Definition underscored : repo :=
  descriptor_of (Examples.item "my_repo" "bob" 4).

(** A workspace in which [dotted] has been cloned. *)
Definition dotted_world : world :=
  {| fs := {[ Examples.work_dir ++ [py "my_repo_bob"] ]}; calls := [] |}.

(** [int()] on an optional sign followed by decimal digits. *)
Fixpoint digits_value (s : str) (acc : Z) : option Z :=
  match s with
  | [] => Some acc
  | c :: s' =>
      if ((48 <=? c) && (c <=? 57))%N
      then digits_value s' (acc * 10 + Z.of_N (c - 48))
      else None
  end.

Definition ascii_int (s : str) : option Z :=
  match s with
  | [] => None
  | c :: s' =>
      if (c =? 45)%N then
        match s' with [] => None | _ => Z.opp <$> digits_value s' 0 end
      else if (c =? 43)%N then
        match s' with [] => None | _ => digits_value s' 0 end
      else digits_value s 0
  end.

(** Two repositories with the same star count around a more popular
    one, on a single page. *)
Definition api_equal_stars (req : request) : response :=
  if Examples.page_of req =? 1
  then Response 200
         (JsonObject
            (Some (map json_of [Examples.item "first" "o" 5;
                                Examples.item "top" "o" 9;
                                Examples.item "second" "o" 5])))
  else Response 200 (JsonObject (Some [])).

(** A page whose second element has no ["clone_url"]. *)
Definition api_broken_item (req : request) : response :=
  Response 200
    (JsonObject
       (Some [json_of (Examples.item "good" "o" 8);
              {| json_name := Some (py "bad");
                 json_full_name := Some (py "o/bad");
                 json_clone_url := None;
                 json_stargazers_count := Some 7;
                 json_owner_obj := Some {| json_login := Some (py "o") |} |};
              json_of (Examples.item "late" "o" 6)])).

(** A [git] that fails before it creates anything. *)
Definition git_unreachable (c : run_call) (fs : gset path)
    : run_result * gset path :=
  (Exited 128, fs).

(** A run of the program on the service [api] in which every task meets
    an empty workspace and [git] succeeds. *)
Definition run_main (api : request -> response)
    (token_line query_line count_line : str) : option Main.main_result :=
  Main.main Sanitize.ascii_isalnum Main.ascii_isspace ascii_int api
    Examples.work_dir ∅ Examples.git_succeeds Examples.rmtree_works
    (fun _ => Examples.empty_world)
    (Main.ProbeExited 0) token_line query_line count_line
    (py "2024-05-01_10h30m") 10.

End Samples.

(** * Properties *)

(** ** Sanitization *)

Module SanitizeFacts.

Import Sanitize.

Section Facts.

Variable isalnum : char -> bool.

Lemma class_matches_kept (c : char) :
  class_matches isalnum true
    [ClassWord; ClassLit (chr "-"); ClassLit (chr "_")] c
  = negb (kept isalnum c).
Proof.
  unfold class_matches, kept. cbn [existsb item_matches].
  unfold is_word.
  destruct (isalnum c), (c =? chr "_")%N, (c =? chr "-")%N; reflexivity.
Qed.

Lemma clean_filename_cons (c : char) (text : str) :
  clean_filename isalnum (c :: text)
  = sanitize_char isalnum c :: clean_filename isalnum text.
Proof.
  unfold clean_filename. cbn [re_sub_class].
  rewrite class_matches_kept. unfold sanitize_char.
  destruct (kept isalnum c); reflexivity.
Qed.

Lemma clean_filename_map (text : str) :
  clean_filename isalnum text = map (sanitize_char isalnum) text.
Proof.
  induction text as [|c text IH]; [reflexivity|].
  rewrite clean_filename_cons, IH. reflexivity.
Qed.

Lemma clean_filename_app (s t : str) :
  clean_filename isalnum (s ++ t)
  = clean_filename isalnum s ++ clean_filename isalnum t.
Proof. rewrite !clean_filename_map. apply map_app. Qed.

Lemma clean_filename_length (text : str) :
  length (clean_filename isalnum text) = length text.
Proof. rewrite clean_filename_map. apply length_map. Qed.

(** C9: [clean_filename] maps the text character by character: a
    character that is alphanumeric, an underscore or a hyphen stays
    as it is, every other character becomes an underscore. *)
Theorem clean_filename_replaces_outside_set (text : str) :
  clean_filename isalnum text
  = map (fun c => if kept isalnum c then c else chr "_") text.
Proof. apply clean_filename_map. Qed.

End Facts.

Example clean_filename_sample :
  clean_filename ascii_isalnum (py "my repo.js/v-2_x")
  = py "my_repo_js_v-2_x".
Proof. reflexivity. Qed.

End SanitizeFacts.

(** ** Search *)

Module SearchFacts.

Import Search.

(** *** The final sort *)

Lemma insert_by_stars_perm (x : repo) (l : list repo) :
  insert_by_stars x l ≡ₚ x :: l.
Proof.
  induction l as [|y l IH]; simpl; [done|].
  destruct (stars x <? stars y); [|done].
  rewrite IH. apply perm_swap.
Qed.

Lemma insert_by_stars_sorted (x : repo) (l : list repo) :
  StronglySorted by_stars_desc l ->
  StronglySorted by_stars_desc (insert_by_stars x l).
Proof.
  induction 1 as [|y l Hs IH Hall]; simpl.
  - repeat constructor.
  - destruct (stars x <? stars y) eqn:E.
    + constructor; [exact IH|].
      rewrite insert_by_stars_perm. constructor; [|exact Hall].
      unfold by_stars_desc. lia.
    + assert (Hxy : by_stars_desc x y) by (unfold by_stars_desc; lia).
      constructor; [by constructor|].
      constructor; [exact Hxy|].
      eapply Forall_impl; [exact Hall|].
      unfold by_stars_desc in *. intros z Hz. lia.
Qed.

Lemma sort_by_stars_reverse_perm (l : list repo) :
  sort_by_stars_reverse l ≡ₚ l.
Proof.
  induction l as [|x l IH]; simpl; [done|].
  rewrite insert_by_stars_perm. by rewrite IH.
Qed.

Lemma sort_by_stars_reverse_sorted (l : list repo) :
  StronglySorted by_stars_desc (sort_by_stars_reverse l).
Proof.
  induction l as [|x l IH]; simpl; [constructor|].
  by apply insert_by_stars_sorted.
Qed.

(** The sort is stable: the descriptors of any one star count keep the
    order they were found in. *)
Lemma insert_by_stars_stable (k : Z) (x : repo) (l : list repo) :
  filter (fun r => stars r = k) (insert_by_stars x l)
  = filter (fun r => stars r = k) (x :: l).
Proof.
  induction l as [|y l IH]; simpl; [done|].
  destruct (stars x <? stars y) eqn:E; [|done].
  rewrite filter_cons, IH, !filter_cons.
  repeat case_decide; try done; lia.
Qed.

Lemma sort_by_stars_reverse_stable (k : Z) (l : list repo) :
  filter (fun r => stars r = k) (sort_by_stars_reverse l)
  = filter (fun r => stars r = k) l.
Proof.
  induction l as [|x l IH]; simpl; [done|].
  by rewrite insert_by_stars_stable, !filter_cons, IH.
Qed.

Lemma slice_to_all {A} (l : list A) (stop : Z) :
  0 <= stop -> Z.of_nat (length l) <= stop -> slice_to l stop = l.
Proof.
  intros H0 Hlen. unfold slice_to.
  destruct (stop <? 0) eqn:E; [lia|].
  apply take_ge. lia.
Qed.

Section Loop.

Variable query : str.
Variable limit : Z.
Variable token : str.
Variable api : request -> response.

Local Abbreviation append_items := (append_items limit).
Local Abbreviation search_loop := (search_loop query limit token api).
Local Abbreviation make_request := (make_request query token).
Local Abbreviation fetched_items := (fetched_items api).
Local Abbreviation room := (room limit).

Lemma read_item_json_of (item : api_item) :
  read_item (json_of item) = Some item.
Proof. by destruct item as [n f u st [l]]. Qed.

Lemma readable_json_of (items : list api_item) :
  readable (map json_of items) = items.
Proof.
  induction items as [|item items IH]; [done|].
  cbn [map readable]. by rewrite read_item_json_of, IH.
Qed.

Lemma append_items_take (items : list json_item) (repos_found : list repo) :
  Z.of_nat (length repos_found) < limit ->
  (append_items items repos_found).1
  = repos_found
    ++ map descriptor_of (take (room repos_found) (readable items)).
Proof.
  revert repos_found.
  induction items as [|item rest IH]; intros found Hlt;
    cbn [Search.append_items readable].
  - by rewrite take_nil, app_nil_r.
  - destruct (read_item item) as [it|]; cbn [fst].
    2:{ by rewrite take_nil, app_nil_r. }
    assert (Hroom : room found = S (room (found ++ [descriptor_of it]))).
    { unfold Search.room. rewrite length_app. simpl. lia. }
    rewrite Hroom. cbn [take map].
    destruct (Z.of_nat (length (found ++ [descriptor_of it])) >=? limit)
      eqn:E.
    + assert (Hz : room (found ++ [descriptor_of it]) = 0%nat).
      { unfold Search.room. lia. }
      rewrite Hz. by rewrite take_0.
    + rewrite IH by lia. by rewrite <- app_assoc.
Qed.

(** A loop over a non-empty array that ends without an exception has
    read its first element. *)
Lemma append_items_not_raised (items : list json_item)
    (repos_found : list repo) :
  items <> [] ->
  (append_items items repos_found).2 = false ->
  readable items <> [].
Proof.
  destruct items as [|item rest]; [done|]. intros _.
  cbn [Search.append_items readable].
  by destruct (read_item item).
Qed.

Lemma room_append (repos_found : list repo) (items rest : list api_item) :
  repos_found ++ map descriptor_of (take (room repos_found) (items ++ rest))
  = let found' :=
      repos_found ++ map descriptor_of (take (room repos_found) items) in
    found' ++ map descriptor_of (take (room found') rest).
Proof.
  simpl. rewrite take_app, map_app, app_assoc. do 3 f_equal.
  unfold Search.room. rewrite length_app, length_map, length_take. lia.
Qed.

Lemma search_loop_step (fuel : nat) (page : Z) (repos_found : list repo)
    (sent : list request) :
  (Z.of_nat (length repos_found) <? limit) = true ->
  search_loop (S fuel) page repos_found sent
  = let req := make_request page in
    let sent := sent ++ [req] in
    match api req with
    | RequestFailed => Some (Fell repos_found, sent)
    | Response status_code body =>
        if status_code =? 401 then Some (Returned [], sent)
        else if status_code =? 403 then Some (Fell repos_found, sent)
        else if negb (status_code =? 200)
        then Some (Fell repos_found, sent)
        else
          match body with
          | InvalidJson => Some (Fell repos_found, sent)
          | JsonObject items =>
              match default [] items with
              | [] => Some (Fell repos_found, sent)
              | items =>
                  let '(repos_found, raised) :=
                    append_items items repos_found in
                  if raised then Some (Fell repos_found, sent)
                  else
                    let page := page + 1 in
                    if page >? 10 then Some (Fell repos_found, sent)
                    else search_loop fuel page repos_found sent
              end
          end
    end.
Proof. intros Hc. cbn [Search.search_loop]. rewrite Hc. reflexivity. Qed.

Lemma search_loop_done (fuel : nat) (page : Z) (repos_found : list repo)
    (sent : list request) :
  (Z.of_nat (length repos_found) <? limit) = false ->
  search_loop fuel page repos_found sent = Some (Fell repos_found, sent).
Proof. intros Hc. destruct fuel; cbn [Search.search_loop]; by rewrite Hc. Qed.

Lemma search_loop_out_of_fuel (page : Z) (repos_found : list repo)
    (sent : list request) :
  (Z.of_nat (length repos_found) <? limit) = true ->
  search_loop 0 page repos_found sent = None.
Proof. intros Hc. cbn [Search.search_loop]. by rewrite Hc. Qed.

Lemma fetched_items_cons (req : request) (sent : list request) :
  fetched_items (req :: sent) = page_items (api req) ++ fetched_items sent.
Proof. reflexivity. Qed.

Lemma fetched_items_single (req : request) :
  fetched_items [req] = page_items (api req).
Proof. unfold Search.fetched_items. simpl. apply app_nil_r. Qed.

(** *** The page ceiling *)

Lemma search_loop_requests_bound :
  forall fuel page repos_found sent ex sent',
    search_loop fuel page repos_found sent = Some (ex, sent') ->
    (length sent' <= length sent + pages_left page)%nat.
Proof.
  induction fuel as [|fuel IH];
    intros page found sent ex sent' H;
    destruct (Z.of_nat (length found) <? limit) eqn:Hc.
  - rewrite search_loop_out_of_fuel in H by done. discriminate.
  - rewrite search_loop_done in H by done. inversion H; subst. lia.
  - rewrite search_loop_step in H by done. cbv zeta in H.
    set (req := make_request page) in *.
    assert (Hone : (length (sent ++ [req])
                    <= length sent + pages_left page)%nat).
    { rewrite length_app. simpl. unfold pages_left. lia. }
    destruct (api req) as [|code body];
      [by inversion H; subst|].
    destruct (code =? 401); [by inversion H; subst|].
    destruct (code =? 403); [by inversion H; subst|].
    destruct (negb (code =? 200)); [by inversion H; subst|].
    destruct body as [|its]; [by inversion H; subst|].
    destruct (default [] its) as [|i its'];
      [by inversion H; subst|].
    destruct (append_items (i :: its') found) as [found' raised].
    destruct raised; [by inversion H; subst|].
    destruct (page + 1 >? 10) eqn:Hp; [by inversion H; subst|].
    apply IH in H. rewrite length_app in H. simpl in H.
    unfold pages_left in *. lia.
  - rewrite search_loop_done in H by done. inversion H; subst. lia.
Qed.

Lemma search_loop_terminates :
  forall fuel page repos_found sent,
    (pages_left page <= fuel)%nat ->
    is_Some (search_loop fuel page repos_found sent).
Proof.
  induction fuel as [|fuel IH]; intros page found sent Hfuel.
  - unfold pages_left in Hfuel. lia.
  - destruct (Z.of_nat (length found) <? limit) eqn:Hc.
    2:{ rewrite search_loop_done by done. eauto. }
    rewrite search_loop_step by done. cbv zeta.
    destruct (api (make_request page)) as [|code body]; [eauto|].
    destruct (code =? 401); [eauto|].
    destruct (code =? 403); [eauto|].
    destruct (negb (code =? 200)); [eauto|].
    destruct body as [|its]; [eauto|].
    destruct (default [] its) as [|i its']; [eauto|].
    destruct (append_items (i :: its') found) as [found' raised].
    destruct raised; [eauto|].
    destruct (page + 1 >? 10) eqn:Hp; [eauto|].
    apply IH. unfold pages_left in *. lia.
Qed.

(** *** An invalid credential *)

Lemma search_loop_401 :
  forall fuel page repos_found sent ex sent',
    search_loop fuel page repos_found sent = Some (ex, sent') ->
    exists new,
      sent' = sent ++ new /\
      forall req, req ∈ new -> status_of (api req) = Some 401 ->
        ex = Returned [] /\ last new = Some req.
Proof.
  assert (Hsingle : forall (r : request) (ex : loop_exit),
             (status_of (api r) = Some 401 -> ex = Returned []) ->
             forall req, req ∈ [r] -> status_of (api req) = Some 401 ->
             ex = Returned [] /\ last [r] = Some req).
  { intros r ex Hex req Hin H401.
    apply list_elem_of_singleton in Hin. subst. auto. }
  induction fuel as [|fuel IH];
    intros page found sent ex sent' H;
    destruct (Z.of_nat (length found) <? limit) eqn:Hc.
  - rewrite search_loop_out_of_fuel in H by done. discriminate.
  - rewrite search_loop_done in H by done. inversion H; subst.
    exists []. rewrite app_nil_r. split; [done|].
    intros req Hin. by apply elem_of_nil in Hin.
  - rewrite search_loop_step in H by done. cbv zeta in H.
    set (r := make_request page) in *.
    destruct (api r) as [|code body] eqn:Hapi.
    { inversion H; subst. exists [r]. split; [done|].
      apply Hsingle. rewrite Hapi. discriminate. }
    destruct (code =? 401) eqn:E401.
    { inversion H; subst. exists [r]. split; [done|].
      by apply Hsingle. }
    assert (Hnot : status_of (api r) <> Some 401).
    { rewrite Hapi. simpl. intros [= ->]. discriminate. }
    destruct (code =? 403).
    { inversion H; subst. exists [r]. split; [done|].
      by apply Hsingle. }
    destruct (negb (code =? 200)).
    { inversion H; subst. exists [r]. split; [done|].
      by apply Hsingle. }
    destruct body as [|its].
    { inversion H; subst. exists [r]. split; [done|].
      by apply Hsingle. }
    destruct (default [] its) as [|i its'].
    { inversion H; subst. exists [r]. split; [done|].
      by apply Hsingle. }
    destruct (append_items (i :: its') found) as [found' raised].
    destruct raised.
    { inversion H; subst. exists [r]. split; [done|].
      by apply Hsingle. }
    destruct (page + 1 >? 10).
    { inversion H; subst. exists [r]. split; [done|].
      by apply Hsingle. }
    apply IH in H as (new & -> & Hnew).
    exists (r :: new). split; [by rewrite <- app_assoc|].
    intros req Hin H401.
    apply elem_of_cons in Hin as [-> | Hin]; [done|].
    destruct (Hnew req Hin H401) as [-> Hlast]. split; [done|].
    destruct new as [|r' new]; [by apply elem_of_nil in Hin|].
    exact Hlast.
  - rewrite search_loop_done in H by done. inversion H; subst.
    exists []. rewrite app_nil_r. split; [done|].
    intros req Hin. by apply elem_of_nil in Hin.
Qed.

End Loop.


Lemma search_github_terminates query limit token api (fuel : nat) :
  (10 <= fuel)%nat -> is_Some (search_github query limit token api fuel).
Proof.
  intros Hfuel. unfold search_github.
  destruct (search_loop_terminates query limit token api fuel 1 [] [])
    as [[ex sent] ->].
  { unfold pages_left. lia. }
  destruct ex; eauto.
Qed.

(** C2 (amended): the run ends, and if one of its page requests is
    answered 401 the search returns the empty list, whatever earlier pages
    delivered, and that request is the last one issued. *)
Theorem search_401_returns_empty query limit token api (fuel : nat) :
  (10 <= fuel)%nat ->
  exists result sent,
    search_github query limit token api fuel = Some (result, sent) /\
    forall req, req ∈ sent -> status_of (api req) = Some 401 ->
      result = [] /\ last sent = Some req.
Proof.
  intros Hfuel. unfold search_github.
  destruct (search_loop_terminates query limit token api fuel 1 [] [])
    as [[ex sent] Hloop].
  { unfold pages_left. lia. }
  rewrite Hloop.
  destruct (search_loop_401 query limit token api _ _ _ _ _ _ Hloop)
    as (new & Hsent & H401).
  simpl in Hsent. subst new.
  destruct ex as [result|found]; eexists _, sent; (split; [reflexivity|]);
    intros req Hin Hreq; destruct (H401 req Hin Hreq) as [Hex Hlast].
  - inversion Hex; subst. done.
  - discriminate.
Qed.

(** C5: whatever the service answers, the search ends after at most 10
    page requests. *)
Theorem search_issues_at_most_10_requests query limit token api (fuel : nat) :
  (10 <= fuel)%nat ->
  exists result sent,
    search_github query limit token api fuel = Some (result, sent) /\
    (length sent <= 10)%nat.
Proof.
  intros Hfuel. unfold search_github.
  destruct (search_loop_terminates query limit token api fuel 1 [] [])
    as [[ex sent] Hloop].
  { unfold pages_left. lia. }
  rewrite Hloop.
  pose proof (search_loop_requests_bound query limit token api
                _ _ _ _ _ _ Hloop) as Hbound.
  unfold pages_left in Hbound. simpl in Hbound.
  destruct ex; eexists _, sent; (split; [reflexivity|]); lia.
Qed.

(** *** Concrete runs *)

Import Examples.

Example search_sorts_the_first_items :
  search_github (py "x") 2 [] api_unsorted 10
  = Some ([descriptor_of (item "b" "o" 50); descriptor_of (item "a" "o" 40)],
          [make_request (py "x") [] 1]).
Proof. vm_compute. reflexivity. Qed.


Lemma search_401_returns_empty_witness :
  exists result sent,
    search_github (py "x") 5 (py "bad") api_401_on_page_2 10
    = Some (result, sent) /\
    forall req, req ∈ sent ->
      status_of (api_401_on_page_2 req) = Some 401 ->
      result = [] /\ last sent = Some req.
Proof.
  apply (search_401_returns_empty (py "x") 5 (py "bad") api_401_on_page_2 10).
  lia.
Defined.

(** C2 as stated fails: the first page delivers two descriptors, the
    second request is answered 401, and the search returns the empty list
    instead of those two. *)
Lemma search_401_discards_earlier_pages :
  search_github (py "x") 5 (py "bad") api_401_on_page_2 10
  = Some ([], [make_request (py "x") (py "bad") 1;
               make_request (py "x") (py "bad") 2]) /\
  status_of (api_401_on_page_2 (make_request (py "x") (py "bad") 2))
  = Some 401 /\
  map descriptor_of
    (page_items (api_401_on_page_2 (make_request (py "x") (py "bad") 1)))
  = [low; high].
Proof. repeat split; vm_compute; reflexivity. Qed.

Lemma search_issues_at_most_10_requests_witness :
  exists result sent,
    search_github (py "x") 5000 [] api_endless 10 = Some (result, sent) /\
    (length sent <= 10)%nat.
Proof.
  apply (search_issues_at_most_10_requests (py "x") 5000 [] api_endless 10).
  lia.
Defined.

(** The ceiling is reached: an endless service is asked for pages 1 to 10. *)
Example search_stops_at_page_10 :
  (map (fun req => page (req_params req)) <$>
   (snd <$> search_github (py "x") 5000 [] api_endless 10))
  = Some [1; 2; 3; 4; 5; 6; 7; 8; 9; 10].
Proof. vm_compute. reflexivity. Qed.

End SearchFacts.

(** ** Clone *)

Module CloneFacts.

Import Search Clone.

(** *** String rewriting *)

Lemma startswith_app (pre s : str) : startswith pre (pre ++ s) = true.
Proof.
  induction pre as [|c pre IH]; simpl; [reflexivity|].
  by rewrite N.eqb_refl.
Qed.

Lemma replace_first_prefix (old new s : str) :
  replace_first old new (old ++ s) = new ++ s.
Proof.
  destruct old as [|c old]; [by destruct s|].
  cbn [replace_first app]. fold (app (c :: old) s).
  change (c :: old ++ s) with ((c :: old) ++ s).
  rewrite startswith_app. by rewrite drop_app_length.
Qed.

Lemma truthy_nonempty (s : str) : s <> [] -> truthy s = true.
Proof. by destruct s. Qed.

Lemma github_prefix_split :
  py "https://github.com/" = py "https://" ++ py "github.com/".
Proof. reflexivity. Qed.

Lemma raises_iff_fails (c : run_call) (r : run_result) :
  check c = true -> raises c r = true <-> retrieval_fails r.
Proof.
  intros Hc. destruct r as [rc| |]; simpl; rewrite ?Hc; simpl; [|done..].
  rewrite negb_true_iff. split; lia.
Qed.

Section Facts.

Variable isalnum : char -> bool.
Variable WORK_DIR : path.
Variable environ : gmap str str.
Variable subprocess_run : run_call -> gset path -> run_result * gset path.
Variable rmtree_ignore_errors : path -> gset path -> gset path.

Local Abbreviation folder_name := (folder_name isalnum).
Local Abbreviation target_path := (target_path isalnum WORK_DIR).
Local Abbreviation git_clone_call :=
  (git_clone_call isalnum WORK_DIR environ).
Local Abbreviation clone_single_repo :=
  (clone_single_repo isalnum WORK_DIR environ subprocess_run
     rmtree_ignore_errors).

(** *** The three ways through the function *)

Lemma clone_existing (repo_info : repo) (token : str) (w : world) :
  target_path repo_info ∈ fs w ->
  clone_single_repo repo_info token w = (None, w).
Proof.
  intros Hin. unfold Clone.clone_single_repo, exists_.
  by rewrite bool_decide_eq_true_2.
Qed.

Lemma clone_failed (repo_info : repo) (token : str) (w : world)
    (result : run_result) (fs1 : gset path) :
  target_path repo_info ∉ fs w ->
  subprocess_run (git_clone_call repo_info token) (fs w) = (result, fs1) ->
  retrieval_fails result ->
  clone_single_repo repo_info token w
  = (None,
     {| fs := if exists_ (target_path repo_info) fs1
              then rmtree_ignore_errors (target_path repo_info) fs1
              else fs1;
        calls := calls w ++ [git_clone_call repo_info token] |}).
Proof.
  intros Hnotin Hrun Hfail. unfold Clone.clone_single_repo.
  unfold exists_ at 1. rewrite bool_decide_eq_false_2 by done.
  rewrite Hrun.
  apply (raises_iff_fails (git_clone_call repo_info token)) in Hfail;
    [|reflexivity].
  by rewrite Hfail.
Qed.

Lemma clone_succeeded (repo_info : repo) (token : str) (w : world)
    (fs1 : gset path) :
  target_path repo_info ∉ fs w ->
  subprocess_run (git_clone_call repo_info token) (fs w) = (Exited 0, fs1) ->
  clone_single_repo repo_info token w
  = (Some repo_info,
     {| fs := if exists_ (target_path repo_info ++ [py ".git"]) fs1
              then rmtree_ignore_errors
                     (target_path repo_info ++ [py ".git"]) fs1
              else fs1;
        calls := calls w ++ [git_clone_call repo_info token] |}).
Proof.
  intros Hnotin Hrun. unfold Clone.clone_single_repo.
  unfold exists_ at 1. rewrite bool_decide_eq_false_2 by done.
  by rewrite Hrun.
Qed.

Lemma clone_calls_git_once (repo_info : repo) (token : str) (w : world) :
  target_path repo_info ∉ fs w ->
  calls (clone_single_repo repo_info token w).2
  = calls w ++ [git_clone_call repo_info token].
Proof.
  intros Hnotin. unfold Clone.clone_single_repo.
  unfold exists_ at 1. rewrite bool_decide_eq_false_2 by done.
  destruct (subprocess_run _ _) as [result fs1].
  by destruct (raises _ result).
Qed.

(** *** The rewritten endpoint *)

Lemma auth_url_embeds_token (repo_info : repo) (token rest : str) :
  token <> [] ->
  clone_url repo_info = py "https://github.com/" ++ rest ->
  auth_url repo_info token
  = py "https://" ++ token ++ py "@github.com/" ++ rest.
Proof.
  intros Htok Hurl. unfold auth_url. rewrite Hurl.
  rewrite startswith_app, truthy_nonempty by done. cbn [andb].
  rewrite github_prefix_split, <- app_assoc, replace_first_prefix.
  by rewrite <- !app_assoc.
Qed.

Lemma auth_url_unchanged (repo_info : repo) (token : str) :
  token = [] \/
  startswith (py "https://github.com/") (clone_url repo_info) = false ->
  auth_url repo_info token = clone_url repo_info.
Proof.
  intros [-> | Hpre]; unfold auth_url; [done|].
  rewrite Hpre. by rewrite andb_false_r.
Qed.

(** *** The target directory *)

Lemma folder_name_parts (repo_info : repo) :
  folder_name repo_info
  = Sanitize.clean_filename isalnum (name repo_info) ++ py "_"
    ++ Sanitize.clean_filename isalnum (owner repo_info).
Proof.
  unfold Clone.folder_name.
  rewrite !SanitizeFacts.clean_filename_app. do 2 f_equal.
  rewrite SanitizeFacts.clean_filename_map.
  change (py "_") with [chr "_"]. cbn [map].
  unfold Sanitize.sanitize_char.
  by destruct (Sanitize.kept isalnum (chr "_")).
Qed.

(** *** Properties of one fetch *)

(** C3: when the target directory of a descriptor already exists, the
    function returns [None] at once and leaves the world as it was: the
    filesystem is untouched and no subprocess call is logged. *)
Theorem clone_skips_existing_target (repo_info : repo) (token : str)
    (w : world) :
  target_path repo_info ∈ fs w ->
  clone_single_repo repo_info token w = (None, w).
Proof. apply clone_existing. Qed.

(** C4 (amended): when the retrieval fails, the function returns [None]
    and, if the target directory is there, asks for its removal with errors
    ignored; no target directory remains whenever that removal took
    effect. *)
Theorem failed_clone_rolls_back_best_effort (repo_info : repo) (token : str)
    (w : world) (result : run_result) (fs1 : gset path) :
  target_path repo_info ∉ fs w ->
  subprocess_run (git_clone_call repo_info token) (fs w) = (result, fs1) ->
  retrieval_fails result ->
  (clone_single_repo repo_info token w).1 = None /\
  fs (clone_single_repo repo_info token w).2
  = (if exists_ (target_path repo_info) fs1
     then rmtree_ignore_errors (target_path repo_info) fs1
     else fs1) /\
  (target_path repo_info
     ∉ rmtree_ignore_errors (target_path repo_info) fs1 ->
   target_path repo_info ∉ fs (clone_single_repo repo_info token w).2).
Proof.
  intros Hnotin Hrun Hfail.
  rewrite (clone_failed _ _ _ _ _ Hnotin Hrun Hfail). cbn [fst snd fs].
  split; [done|]. split; [done|].
  intros Hgone. unfold exists_. case_bool_decide; done.
Qed.

(** C6: the URL handed to [git] is the fifth argument of the one call the
    function makes.  With a non-empty credential and a clone endpoint that
    starts with [https://github.com/], it is the endpoint with the
    credential and an [@] inserted once, right after [https://]; in every
    other case it is the endpoint itself. *)
Theorem clone_embeds_credential_once (repo_info : repo) (token : str)
    (w : world) :
  target_path repo_info ∉ fs w ->
  exists call,
    calls (clone_single_repo repo_info token w).2 = calls w ++ [call] /\
    args call !! 4%nat = Some (auth_url repo_info token) /\
    (forall rest,
       token <> [] ->
       clone_url repo_info = py "https://github.com/" ++ rest ->
       auth_url repo_info token
       = py "https://" ++ token ++ py "@github.com/" ++ rest) /\
    (token = [] \/
     startswith (py "https://github.com/") (clone_url repo_info) = false ->
     auth_url repo_info token = clone_url repo_info).
Proof.
  intros Hnotin. exists (git_clone_call repo_info token).
  split; [by apply clone_calls_git_once|]. split; [reflexivity|].
  split; [intros rest; apply auth_url_embeds_token
         |apply auth_url_unchanged].
Qed.

(** C7 (amended): the directory the function checks and hands to [git] as
    the destination is [WORK_DIR] extended by the sanitized form of
    [name + "_" + owner]: the sanitized repository name, an underscore, the
    sanitized owner login. *)
Theorem clone_target_is_sanitized_name_owner (repo_info : repo)
    (token : str) (w : world) :
  target_path repo_info ∉ fs w ->
  exists call,
    calls (clone_single_repo repo_info token w).2 = calls w ++ [call] /\
    last (args call)
    = Some (path_str
              (WORK_DIR
               ++ [Sanitize.clean_filename isalnum (name repo_info)
                   ++ py "_"
                   ++ Sanitize.clean_filename isalnum (owner repo_info)])).
Proof.
  intros Hnotin. exists (git_clone_call repo_info token).
  split; [by apply clone_calls_git_once|].
  cbn [Clone.git_clone_call args last]. unfold Clone.target_path.
  by rewrite folder_name_parts.
Qed.

End Facts.

(** *** Concrete runs *)

Import Examples.

Local Abbreviation run_hello git rmtree w :=
  (clone_single_repo Sanitize.ascii_isalnum work_dir ∅ git rmtree
     hello (py "TOKEN") w).

Lemma hello_target :
  target_path Sanitize.ascii_isalnum work_dir hello
  = work_dir ++ [py "hello_octocat"].
Proof. reflexivity. Qed.

Lemma hello_target_fresh :
  target_path Sanitize.ascii_isalnum work_dir hello ∉ fs empty_world.
Proof. apply not_elem_of_empty. Qed.

Lemma hello_target_cloned :
  target_path Sanitize.ascii_isalnum work_dir hello ∈ fs cloned_world.
Proof.
  rewrite hello_target. unfold cloned_world. cbn [fs].
  by apply elem_of_singleton.
Qed.

Lemma clone_skips_existing_target_witness :
  run_hello git_succeeds rmtree_works cloned_world = (None, cloned_world).
Proof.
  apply (clone_skips_existing_target Sanitize.ascii_isalnum work_dir ∅
           git_succeeds rmtree_works hello (py "TOKEN") cloned_world).
  exact hello_target_cloned.
Defined.

Lemma rmtree_works_removes (p : path) (fs : gset path) :
  p ∉ rmtree_works p fs.
Proof.
  unfold rmtree_works. rewrite elem_of_filter.
  intros [Hneg _]. apply Is_true_true in Hneg.
  apply negb_true_iff, bool_decide_eq_false in Hneg. by apply Hneg.
Qed.

Lemma failed_clone_rolls_back_best_effort_witness :
  (run_hello git_fails_midway rmtree_works empty_world).1 = None /\
  fs (run_hello git_fails_midway rmtree_works empty_world).2
  = (if exists_ (target_path Sanitize.ascii_isalnum work_dir hello)
          (∅ ∪ {[ work_dir ++ [py "hello_octocat"] ]})
     then rmtree_works (target_path Sanitize.ascii_isalnum work_dir hello)
            (∅ ∪ {[ work_dir ++ [py "hello_octocat"] ]})
     else ∅ ∪ {[ work_dir ++ [py "hello_octocat"] ]}) /\
  (target_path Sanitize.ascii_isalnum work_dir hello
     ∉ rmtree_works (target_path Sanitize.ascii_isalnum work_dir hello)
         (∅ ∪ {[ work_dir ++ [py "hello_octocat"] ]}) ->
   target_path Sanitize.ascii_isalnum work_dir hello
     ∉ fs (run_hello git_fails_midway rmtree_works empty_world).2).
Proof.
  apply (failed_clone_rolls_back_best_effort Sanitize.ascii_isalnum work_dir
           ∅ git_fails_midway rmtree_works hello (py "TOKEN") empty_world
           (Exited 128)).
  - exact hello_target_fresh.
  - reflexivity.
  - simpl. lia.
Defined.

(** With a removal that takes effect, nothing is left of the failed task. *)
Example failed_clone_leaves_nothing :
  target_path Sanitize.ascii_isalnum work_dir hello
    ∉ fs (run_hello git_fails_midway rmtree_works empty_world).2.
Proof.
  rewrite (clone_failed Sanitize.ascii_isalnum work_dir ∅ git_fails_midway
             rmtree_works hello (py "TOKEN") empty_world (Exited 128)
             (∅ ∪ {[ work_dir ++ [py "hello_octocat"] ]})
             hello_target_fresh eq_refl);
    [|simpl; lia].
  cbn [snd fs]. unfold exists_. case_bool_decide; [|done].
  apply rmtree_works_removes.
Qed.

(** C4 as stated fails: [git] creates the target directory and exits with
    status 128, the removal is refused by the system and the error is
    ignored; the function returns [None] and the directory is still there. *)
Lemma failed_clone_can_leave_partial_directory :
  retrieval_fails
    (git_fails_midway
       (git_clone_call Sanitize.ascii_isalnum work_dir ∅ hello (py "TOKEN"))
       (fs empty_world)).1 /\
  (run_hello git_fails_midway rmtree_refused empty_world).1 = None /\
  target_path Sanitize.ascii_isalnum work_dir hello
    ∈ fs (run_hello git_fails_midway rmtree_refused empty_world).2.
Proof.
  split; [simpl; lia|].
  rewrite (clone_failed Sanitize.ascii_isalnum work_dir ∅ git_fails_midway
             rmtree_refused hello (py "TOKEN") empty_world (Exited 128)
             (∅ ∪ {[ work_dir ++ [py "hello_octocat"] ]})
             hello_target_fresh eq_refl);
    [|simpl; lia].
  cbn [fst snd fs]. split; [done|].
  rewrite hello_target. unfold rmtree_refused.
  destruct (exists_ _ _); set_solver.
Qed.

Lemma clone_embeds_credential_once_witness :
  exists call,
    calls (run_hello git_succeeds rmtree_works empty_world).2
    = calls empty_world ++ [call] /\
    args call !! 4%nat
    = Some (auth_url hello (py "TOKEN")) /\
    (forall rest,
       py "TOKEN" <> [] ->
       clone_url hello = py "https://github.com/" ++ rest ->
       auth_url hello (py "TOKEN")
       = py "https://" ++ py "TOKEN" ++ py "@github.com/" ++ rest) /\
    (py "TOKEN" = [] \/
     startswith (py "https://github.com/") (clone_url hello) = false ->
     auth_url hello (py "TOKEN") = clone_url hello).
Proof.
  apply (clone_embeds_credential_once Sanitize.ascii_isalnum work_dir ∅
           git_succeeds rmtree_works hello (py "TOKEN") empty_world).
  exact hello_target_fresh.
Defined.

Example auth_url_with_token :
  auth_url hello (py "TOKEN")
  = py "https://TOKEN@github.com/octocat/hello.git".
Proof. reflexivity. Qed.

Example auth_url_without_token :
  auth_url hello [] = py "https://github.com/octocat/hello.git".
Proof. reflexivity. Qed.

Example auth_url_other_host :
  auth_url {| name := py "r"; full_name := py "o/r";
              clone_url := py "git@github.com:o/r.git";
              stars := 1; owner := py "o" |} (py "TOKEN")
  = py "git@github.com:o/r.git".
Proof. reflexivity. Qed.

Lemma clone_target_is_sanitized_name_owner_witness :
  exists call,
    calls (run_hello git_succeeds rmtree_works empty_world).2
    = calls empty_world ++ [call] /\
    last (args call)
    = Some (path_str
              (work_dir
               ++ [Sanitize.clean_filename Sanitize.ascii_isalnum (name hello)
                   ++ py "_"
                   ++ Sanitize.clean_filename Sanitize.ascii_isalnum
                        (owner hello)])).
Proof.
  apply (clone_target_is_sanitized_name_owner Sanitize.ascii_isalnum work_dir
           ∅ git_succeeds rmtree_works hello (py "TOKEN") empty_world).
  exact hello_target_fresh.
Defined.

(** C7 as stated fails: for the repository [octocat/hello] the directory is
    [hello_octocat], while the sanitized fully-qualified identifier is
    [octocat_hello]. *)
Lemma clone_target_is_not_sanitized_full_name :
  full_name hello = py "octocat/hello" /\
  Sanitize.clean_filename Sanitize.ascii_isalnum (full_name hello)
  = py "octocat_hello" /\
  folder_name Sanitize.ascii_isalnum hello = py "hello_octocat" /\
  last (args (git_clone_call Sanitize.ascii_isalnum work_dir ∅ hello
                (py "TOKEN")))
  = Some (py "/tmp/temp_repos/hello_octocat") /\
  folder_name Sanitize.ascii_isalnum hello
  <> Sanitize.clean_filename Sanitize.ascii_isalnum (full_name hello).
Proof. repeat split; [reflexivity..|discriminate]. Qed.

End CloneFacts.

(** ** Report *)

Module ReportFacts.

Import Search Report.

Lemma count_successes_from (results : list (option repo)) (n : Z) :
  foldl (fun success_count result =>
           match result with
           | Some _ => success_count + 1
           | None => success_count
           end) n results
  = n + count_successes results.
Proof.
  unfold count_successes. revert n.
  induction results as [|r results IH]; intros n; simpl; [lia|].
  rewrite IH, (IH (match r with Some _ => 0 + 1 | None => 0 end)).
  destruct r; lia.
Qed.

Lemma count_successes_cons (r : option repo) (results : list (option repo)) :
  count_successes (r :: results)
  = match r with Some _ => 1 | None => 0 end + count_successes results.
Proof.
  unfold count_successes at 1. simpl. rewrite count_successes_from.
  by destruct r.
Qed.

Lemma count_successes_app (l1 l2 : list (option repo)) :
  count_successes (l1 ++ l2) = count_successes l1 + count_successes l2.
Proof.
  induction l1 as [|r l1 IH]; simpl; [reflexivity|].
  rewrite !count_successes_cons, IH. lia.
Qed.

(** The counter is the number of results that carry a descriptor. *)
Lemma count_successes_omap (results : list (option repo)) :
  count_successes results = Z.of_nat (length (omap id results)).
Proof.
  induction results as [|r results IH]; [reflexivity|].
  rewrite count_successes_cons, IH.
  destruct r; cbn [omap list_omap id length]; lia.
Qed.

Lemma count_successes_skips_none (before after : list (option repo)) :
  count_successes (before ++ None :: after)
  = count_successes (before ++ after).
Proof. rewrite !count_successes_app, count_successes_cons. lia. Qed.

(** C8: the manifest opens with the timestamp, the query, the requested
    count and the number of successful fetches, and after the separator
    holds one line [[<stars>★] <full_name> -> <clone_url>] per descriptor
    of the search result, in the order of that result, whatever the
    fetches returned. *)
Theorem report_lists_every_descriptor_in_order (timestamp user_query : str)
    (user_limit : Z) (repos : list repo) (results : list (option repo)) :
  take 4 (report timestamp user_query user_limit repos results)
  = [ py "Rapport généré le " ++ timestamp ++ nl;
      py "Recherche : " ++ user_query ++ nl;
      py "Projets demandés : " ++ str_of_int user_limit ++ nl;
      py "Projets téléchargés : "
        ++ str_of_int (Z.of_nat (length (omap id results))) ++ nl ] /\
  drop 5 (report timestamp user_query user_limit repos results)
  = map (fun r => py "[" ++ str_of_int (stars r) ++ py "★] "
                  ++ full_name r ++ py " -> " ++ clone_url r ++ nl) repos /\
  length (report timestamp user_query user_limit repos results)
  = (5 + length repos)%nat.
Proof.
  unfold report, write_report. rewrite count_successes_omap.
  cbn [take drop app length]. rewrite length_map. done.
Qed.

Import Examples.

Example report_sample :
  drop 5 (report (py "2024-05-01_10h30m") (py "bots") 3 [high; hello; low]
            [Some high; None; None])
  = [ py "[9★] bob/high -> https://github.com/bob/high.git" ++ nl;
      py "[7★] octocat/hello -> https://github.com/octocat/hello.git" ++ nl;
      py "[3★] alice/low -> https://github.com/alice/low.git" ++ nl ].
Proof. vm_compute. reflexivity. Qed.

Example report_counts_successes :
  report (py "2024-05-01_10h30m") (py "bots") 3 [high; hello; low]
    [Some high; None; None] !! 3%nat
  = Some (py "Projets téléchargés : 1" ++ nl).
Proof. vm_compute. reflexivity. Qed.

End ReportFacts.

(** ** Outcomes of a fetch as the caller sees them *)

Module OutcomeFacts.

Import Search Clone Report.

Section Facts.

Variable isalnum : char -> bool.
Variable WORK_DIR : path.
Variable environ : gmap str str.
Variable subprocess_run : run_call -> gset path -> run_result * gset path.
Variable rmtree_ignore_errors : path -> gset path -> gset path.

Local Abbreviation target_path := (target_path isalnum WORK_DIR).
Local Abbreviation git_clone_call :=
  (git_clone_call isalnum WORK_DIR environ).
Local Abbreviation clone_single_repo :=
  (clone_single_repo isalnum WORK_DIR environ subprocess_run
     rmtree_ignore_errors).

(** C10: a fetch returns the descriptor it was given or [None].  It is
    the descriptor exactly when [git] ran and exited with status 0; an
    existing target directory and a failed retrieval both give [None], and
    a [None] among the results adds nothing to the success counter. *)
Theorem clone_returns_descriptor_or_none (repo_info : repo) (token : str)
    (w : world) :
  let outcome := (clone_single_repo repo_info token w).1 in
  let git := (subprocess_run (git_clone_call repo_info token) (fs w)).1 in
  (outcome = Some repo_info \/ outcome = None) /\
  (target_path repo_info ∈ fs w -> outcome = None) /\
  (target_path repo_info ∉ fs w -> retrieval_fails git -> outcome = None) /\
  (target_path repo_info ∉ fs w -> git = Exited 0 ->
   outcome = Some repo_info) /\
  (forall before after,
     outcome = None ->
     count_successes (before ++ outcome :: after)
     = count_successes (before ++ after)).
Proof.
  cbv zeta.
  assert (Hskip : target_path repo_info ∈ fs w ->
                  (clone_single_repo repo_info token w).1 = None).
  { intros Hin. by rewrite CloneFacts.clone_existing. }
  assert (Hfail : target_path repo_info ∉ fs w ->
                  retrieval_fails
                    (subprocess_run (git_clone_call repo_info token) (fs w)).1 ->
                  (clone_single_repo repo_info token w).1 = None).
  { intros Hnotin Hf.
    destruct (subprocess_run _ _) as [result fs1] eqn:Hrun.
    by rewrite (CloneFacts.clone_failed _ _ _ _ _ _ _ _ _ _ Hnotin Hrun Hf). }
  assert (Hok : target_path repo_info ∉ fs w ->
                (subprocess_run (git_clone_call repo_info token) (fs w)).1
                = Exited 0 ->
                (clone_single_repo repo_info token w).1 = Some repo_info).
  { intros Hnotin Hz.
    destruct (subprocess_run _ _) as [result fs1] eqn:Hrun.
    simpl in Hz. subst result.
    by rewrite (CloneFacts.clone_succeeded _ _ _ _ _ _ _ _ _ Hnotin Hrun). }
  split; [|split; [exact Hskip|split; [exact Hfail|split; [exact Hok|]]]].
  - destruct (decide (target_path repo_info ∈ fs w)) as [Hin|Hnotin];
      [right; by apply Hskip|].
    destruct (subprocess_run (git_clone_call repo_info token) (fs w)).1
      as [rc| |] eqn:Hres.
    + destruct (decide (rc = 0)) as [->|Hrc].
      * left. by apply Hok.
      * right. by apply Hfail.
    + right. by apply Hfail.
    + right. by apply Hfail.
  - intros before after ->. apply ReportFacts.count_successes_skips_none.
Qed.

End Facts.

Import Examples.

Local Abbreviation run_hello git rmtree w :=
  (clone_single_repo Sanitize.ascii_isalnum work_dir ∅ git rmtree
     hello (py "TOKEN") w).

(** A skipped, a failed and a successful fetch of the same descriptor. *)
Lemma clone_returns_descriptor_or_none_witness :
  (run_hello git_succeeds rmtree_works cloned_world).1 = None /\
  (run_hello git_fails_midway rmtree_works empty_world).1 = None /\
  (run_hello git_succeeds rmtree_works empty_world).1 = Some hello.
Proof.
  pose proof (clone_returns_descriptor_or_none Sanitize.ascii_isalnum
                work_dir ∅ git_succeeds rmtree_works hello (py "TOKEN")
                cloned_world) as Hskipped.
  pose proof (clone_returns_descriptor_or_none Sanitize.ascii_isalnum
                work_dir ∅ git_fails_midway rmtree_works hello (py "TOKEN")
                empty_world) as Hfailed.
  pose proof (clone_returns_descriptor_or_none Sanitize.ascii_isalnum
                work_dir ∅ git_succeeds rmtree_works hello (py "TOKEN")
                empty_world) as Hcloned.
  cbv zeta in Hskipped, Hfailed, Hcloned.
  destruct Hskipped as (_ & Hskip & _).
  destruct Hfailed as (_ & _ & Hfail & _).
  destruct Hcloned as (_ & _ & _ & Hok & _).
  split; [|split].
  - exact (Hskip CloneFacts.hello_target_cloned).
  - apply (Hfail CloneFacts.hello_target_fresh). simpl. lia.
  - exact (Hok CloneFacts.hello_target_fresh eq_refl).
Defined.

End OutcomeFacts.

(** ** Runs of the search loop *)

Module RunFacts.

Import Search Runs.

Lemma pages_from_succ (page : Z) (n : nat) :
  pages_from page (S n) = page :: pages_from (page + 1) n.
Proof.
  unfold pages_from. cbn [seq map]. f_equal; [lia|].
  rewrite <- seq_shift, map_map. apply map_ext. intros i. lia.
Qed.

Lemma productive_page_not_401 (r : response) :
  raw_page_items r <> [] ->
  match r with
  | Response status_code _ => status_code =? 401
  | RequestFailed => false
  end = false.
Proof.
  destruct r as [|code body]; [done|]. simpl.
  destruct body as [|its]; [done|].
  destruct (code =? 200) eqn:E200; [lia|done].
Qed.

Lemma page_items_no_array (r : response) :
  raw_page_items r = [] -> page_items r = [].
Proof. unfold page_items. by intros ->. Qed.

Section Facts.

Variable query : str.
Variable limit : Z.
Variable token : str.
Variable api : request -> response.

Local Abbreviation append_items := (append_items limit).
Local Abbreviation search_loop := (search_loop query limit token api).
Local Abbreviation search_github := (search_github query limit token api).
Local Abbreviation make_request := (make_request query token).
Local Abbreviation fetched_items := (fetched_items api).
Local Abbreviation room := (room limit).
Local Abbreviation loop_run := (loop_run query limit token api).
Local Abbreviation result_of := (result_of limit).
Local Abbreviation answered_401 := (answered_401 api).

Lemma run_stop_as (page : Z) (repos_found : list repo) (ex : loop_exit) :
  Z.of_nat (length repos_found) < limit ->
  raw_page_items (api (make_request page)) = [] ->
  ex = stop_exit (api (make_request page)) repos_found ->
  loop_run page repos_found [make_request page] ex.
Proof. intros Hlt Hp ->. by apply run_stop. Qed.

(** What the loop holds after a page whose array is not empty. *)
Lemma appended_from_page (page : Z) (repos_found repos_found' : list repo)
    (raised : bool) :
  Z.of_nat (length repos_found) < limit ->
  append_items (raw_page_items (api (make_request page))) repos_found
  = (repos_found', raised) ->
  repos_found'
  = repos_found
    ++ map descriptor_of
         (take (room repos_found) (page_items (api (make_request page)))).
Proof.
  intros Hlt Happ.
  pose proof (SearchFacts.append_items_take limit
                (raw_page_items (api (make_request page))) repos_found Hlt)
    as Htake.
  by rewrite Happ in Htake.
Qed.

(** Every finished evaluation of the loop is a run. *)
Lemma search_loop_run :
  forall fuel page repos_found sent ex sent',
    search_loop fuel page repos_found sent = Some (ex, sent') ->
    exists new, sent' = sent ++ new /\ loop_run page repos_found new ex.
Proof.
  induction fuel as [|fuel IH];
    intros page found sent ex sent' H;
    destruct (Z.of_nat (length found) <? limit) eqn:Hc.
  - rewrite SearchFacts.search_loop_out_of_fuel in H by done. discriminate.
  - rewrite SearchFacts.search_loop_done in H by done. inversion H; subst.
    exists []. rewrite app_nil_r. split; [done|]. apply run_enough. lia.
  - rewrite SearchFacts.search_loop_step in H by done. cbv zeta in H.
    assert (Hlt : Z.of_nat (length found) < limit) by lia.
    set (req := make_request page) in *.
    destruct (api req) as [|code body] eqn:Hapi.
    { inversion H; subst. exists [req]. split; [done|].
      apply run_stop_as; fold req; rewrite ?Hapi; done. }
    destruct (code =? 401) eqn:E401.
    { inversion H; subst. exists [req]. split; [done|].
      apply run_stop_as; fold req; rewrite ?Hapi; simpl; rewrite ?E401;
        try done.
      destruct body; [done|]. by replace (code =? 200) with false by lia. }
    destruct (code =? 403) eqn:E403.
    { inversion H; subst. exists [req]. split; [done|].
      apply run_stop_as; fold req; rewrite ?Hapi; simpl; rewrite ?E401;
        try done.
      destruct body; [done|]. by replace (code =? 200) with false by lia. }
    destruct (code =? 200) eqn:E200; cbn [negb] in H.
    2:{ inversion H; subst. exists [req]. split; [done|].
        apply run_stop_as; fold req; rewrite ?Hapi; simpl; rewrite ?E401;
          try done.
        destruct body; [done|]. by rewrite E200. }
    destruct body as [|its].
    { inversion H; subst. exists [req]. split; [done|].
      apply run_stop_as; fold req; rewrite ?Hapi; simpl; rewrite ?E401;
        done. }
    assert (Hpage : raw_page_items (api req) = default [] its).
    { rewrite Hapi. simpl. by rewrite E200. }
    destruct (default [] its) as [|i its'] eqn:Hits.
    { inversion H; subst. exists [req]. split; [done|].
      apply run_stop_as; fold req; rewrite ?Hapi; simpl; rewrite ?E401;
        try done.
      by rewrite E200. }
    rewrite <- Hpage in H.
    assert (Hne : raw_page_items (api req) <> []) by (by rewrite Hpage).
    destruct (append_items (raw_page_items (api req)) found)
      as [found' raised] eqn:Happ.
    destruct raised.
    { inversion H; subst. exists [req]. split; [done|].
      by eapply run_raise. }
    destruct (page + 1 >? 10) eqn:Hp.
    { inversion H; subst. exists [req]. split; [done|].
      eapply run_ceiling; [done|done|done|lia]. }
    apply IH in H as (new & -> & Hrun).
    exists (req :: new). split; [by rewrite <- app_assoc|].
    eapply run_next; [done|done|done|lia|done].
  - rewrite SearchFacts.search_loop_done in H by done. inversion H; subst.
    exists []. rewrite app_nil_r. split; [done|]. apply run_enough. lia.
Qed.

(** With fuel for ten iterations the function returns, and what it
    returns comes from a run that starts at page 1 with nothing found. *)
Lemma search_github_run (fuel : nat) :
  (10 <= fuel)%nat ->
  exists ex sent,
    loop_run 1 [] sent ex /\
    search_github fuel = Some (result_of ex, sent).
Proof.
  intros Hfuel. unfold Search.search_github.
  destruct (SearchFacts.search_loop_terminates query limit token api
              fuel 1 [] []) as [[ex sent] Hloop].
  { unfold pages_left. lia. }
  rewrite Hloop.
  apply search_loop_run in Hloop as (new & Hsent & Hrun).
  simpl in Hsent. subst new.
  exists ex, sent. split; [done|]. by destruct ex.
Qed.

(** *** What holds along every run *)

Lemma loop_run_pages page repos_found new ex :
  loop_run page repos_found new ex ->
  new = map make_request (pages_from page (length new)).
Proof.
  induction 1 as [| | | |page found found' new ex Hlt Hne Happ Hp Hrun IH];
    [done| | | |]; cbn [length]; rewrite pages_from_succ; cbn [map];
    [done..|].
  by rewrite <- IH.
Qed.

Lemma loop_run_length page repos_found new ex :
  loop_run page repos_found new ex ->
  (length new <= pages_left page)%nat.
Proof.
  induction 1 as [| | | |page found found' new ex Hlt Hne Happ Hp Hrun IH];
    unfold pages_left in *; simpl; lia.
Qed.

Lemma loop_run_exit page repos_found new ex :
  loop_run page repos_found new ex ->
  ex = if answered_401 new then Returned []
       else Fell (repos_found
                  ++ map descriptor_of
                       (take (room repos_found) (fetched_items new))).
Proof.
  induction 1 as [page found Hge|page found Hlt Hp
                 |page found found' Hlt Hne Happ
                 |page found found' Hlt Hne Happ Hp
                 |page found found' new ex Hlt Hne Happ Hp Hrun IH].
  - simpl. by rewrite take_nil, app_nil_r.
  - unfold Runs.answered_401. cbn [existsb]. rewrite orb_false_r.
    rewrite SearchFacts.fetched_items_single, (page_items_no_array _ Hp).
    rewrite take_nil. simpl. rewrite app_nil_r. unfold stop_exit.
    by destruct (api (make_request page)).
  - unfold Runs.answered_401. cbn [existsb].
    rewrite (productive_page_not_401 _ Hne). cbn [orb].
    rewrite SearchFacts.fetched_items_single.
    by rewrite (appended_from_page _ _ _ _ Hlt Happ).
  - unfold Runs.answered_401. cbn [existsb].
    rewrite (productive_page_not_401 _ Hne). cbn [orb].
    rewrite SearchFacts.fetched_items_single.
    by rewrite (appended_from_page _ _ _ _ Hlt Happ).
  - unfold Runs.answered_401 in *. cbn [existsb].
    rewrite (productive_page_not_401 _ Hne). cbn [orb].
    rewrite IH. destruct (existsb _ new); [done|].
    rewrite (appended_from_page _ _ _ _ Hlt Happ).
    by rewrite SearchFacts.fetched_items_cons, SearchFacts.room_append.
Qed.

Lemma loop_run_unproductive_last page repos_found new ex :
  loop_run page repos_found new ex ->
  forall i req, new !! i = Some req -> page_items (api req) = [] ->
    length new = S i.
Proof.
  induction 1 as [| | | |page found found' new ex Hlt Hne Happ Hp Hrun IH];
    intros i req Hi Hreq.
  - done.
  - by destruct i.
  - by destruct i.
  - by destruct i.
  - destruct i as [|i]; simpl in Hi.
    + inversion Hi; subst. exfalso.
      eapply SearchFacts.append_items_not_raised; [exact Hne| |exact Hreq].
      by rewrite Happ.
    + simpl. f_equal. by eapply IH.
Qed.

Lemma loop_run_below_limit page repos_found new ex :
  loop_run page repos_found new ex ->
  forall i, (i < length new)%nat ->
    Z.of_nat (length repos_found + length (fetched_items (take i new)))
    < limit.
Proof.
  induction 1 as [page found Hge|page found Hlt Hp
                 |page found found' Hlt Hne Happ
                 |page found found' Hlt Hne Happ Hp
                 |page found found' new ex Hlt Hne Happ Hp Hrun IH];
    intros i Hi; simpl in Hi.
  - lia.
  - destruct i; [simpl; lia|lia].
  - destruct i; [simpl; lia|lia].
  - destruct i; [simpl; lia|lia].
  - destruct i as [|i]; [simpl; lia|].
    assert (Hi' : (i < length new)%nat) by lia.
    specialize (IH i Hi').
    rewrite (appended_from_page _ _ _ _ Hlt Happ) in IH.
    cbn [take]. rewrite SearchFacts.fetched_items_cons.
    rewrite !length_app, length_map, length_take in *.
    unfold Search.room in IH. lia.
Qed.

Lemma fetched_items_length (sent : list request) :
  (forall req, (length (page_items (api req)) <= 100)%nat) ->
  (length (fetched_items sent) <= 100 * length sent)%nat.
Proof.
  intros Hpage. induction sent as [|req sent IH]; [simpl; lia|].
  rewrite SearchFacts.fetched_items_cons, length_app. cbn [length].
  specialize (Hpage req). lia.
Qed.

Lemma result_of_exit (sent : list request) :
  0 <= limit ->
  result_of (if answered_401 sent then Returned []
             else Fell ([] ++ map descriptor_of
                          (take (room []) (fetched_items sent))))
  = if answered_401 sent then []
    else sort_by_stars_reverse
           (map descriptor_of (take (Z.to_nat limit) (fetched_items sent))).
Proof.
  intros Hlimit. destruct (answered_401 sent); [done|].
  cbn [Runs.result_of app].
  replace (room []) with (Z.to_nat limit)
    by (unfold Search.room; simpl; lia).
  apply SearchFacts.slice_to_all; [done|].
  rewrite (Permutation_length (SearchFacts.sort_by_stars_reverse_perm _)).
  rewrite length_map, length_take. lia.
Qed.

Lemma search_github_inv (fuel : nat) (result : list repo)
    (sent : list request) :
  search_github fuel = Some (result, sent) ->
  exists ex, loop_run 1 [] sent ex /\ result = result_of ex.
Proof.
  unfold Search.search_github. intros H.
  destruct (search_loop fuel 1 [] []) as [[ex sent']|] eqn:Hloop; [|done].
  apply search_loop_run in Hloop as (new & Hsent & Hrun).
  simpl in Hsent. subst new.
  exists ex. destruct ex; inversion H; subst; done.
Qed.

Lemma search_github_401 (fuel : nat) (result : list repo)
    (sent : list request) :
  search_github fuel = Some (result, sent) ->
  answered_401 sent = true -> result = [].
Proof.
  intros H H401. apply search_github_inv in H as (ex & Hrun & ->).
  by rewrite (loop_run_exit _ _ _ _ Hrun), H401.
Qed.

Lemma search_github_length (fuel : nat) (result : list repo)
    (sent : list request) :
  search_github fuel = Some (result, sent) ->
  0 <= limit ->
  Z.of_nat (length result) <= limit.
Proof.
  intros H Hlimit. apply search_github_inv in H as (ex & Hrun & ->).
  rewrite (loop_run_exit _ _ _ _ Hrun), result_of_exit by done.
  destruct (answered_401 sent); [simpl; lia|].
  rewrite (Permutation_length (SearchFacts.sort_by_stars_reverse_perm _)).
  rewrite length_map, length_take. lia.
Qed.

Lemma search_github_nonpositive (fuel : nat) :
  limit <= 0 -> search_github fuel = Some ([], []).
Proof.
  intros Hle. unfold Search.search_github.
  rewrite SearchFacts.search_loop_done by (apply Z.ltb_ge; simpl; lia).
  unfold slice_to. simpl. destruct (limit <? 0); by rewrite take_nil.
Qed.

(** *** Properties of a whole search *)

(** X1: with a requested count of zero or less the search asks the
    service nothing and returns the empty list. *)
Theorem search_nonpositive_limit_asks_nothing (fuel : nat) :
  limit <= 0 -> search_github fuel = Some ([], []).
Proof. apply search_github_nonpositive. Qed.

(** X2: the requests of a search are those for pages 1, 2, ... in this
    order, without a gap, all with the same query, headers, page size and
    time limit. *)
Theorem search_requests_are_consecutive_pages (fuel : nat) :
  (10 <= fuel)%nat ->
  exists result sent,
    search_github fuel = Some (result, sent) /\
    sent = map make_request (pages_from 1 (length sent)).
Proof.
  intros Hfuel.
  destruct (search_github_run fuel Hfuel) as (ex & sent & Hrun & Heq).
  exists (result_of ex), sent. split; [exact Heq|].
  by apply loop_run_pages in Hrun.
Qed.


(** X4: whatever the service answers, the search never returns more
    descriptors than were requested. *)
Theorem search_never_exceeds_limit (fuel : nat) :
  (10 <= fuel)%nat ->
  0 <= limit ->
  exists result sent,
    search_github fuel = Some (result, sent) /\
    Z.of_nat (length result) <= limit.
Proof.
  intros Hfuel Hlimit.
  destruct (search_github_run fuel Hfuel) as (ex & sent & Hrun & Heq).
  exists (result_of ex), sent. split; [exact Heq|].
  rewrite (loop_run_exit _ _ _ _ Hrun), result_of_exit by done.
  destruct (answered_401 sent); [simpl; lia|].
  rewrite (Permutation_length (SearchFacts.sort_by_stars_reverse_perm _)).
  rewrite length_map, length_take. lia.
Qed.

(** X5: pagination ends at the first page that brings no item (an error
    status, a failed request, a body without items): such a request is the
    last one of the search. *)
Theorem search_stops_at_unproductive_page (fuel : nat) :
  (10 <= fuel)%nat ->
  exists result sent,
    search_github fuel = Some (result, sent) /\
    forall i req,
      sent !! i = Some req -> page_items (api req) = [] ->
      length sent = S i.
Proof.
  intros Hfuel.
  destruct (search_github_run fuel Hfuel) as (ex & sent & Hrun & Heq).
  exists (result_of ex), sent. split; [exact Heq|].
  exact (loop_run_unproductive_last _ _ _ _ Hrun).
Qed.

(** X6: a page is requested only while the pages before it have brought
    fewer items than the requested count. *)
Theorem search_asks_only_below_limit (fuel : nat) :
  (10 <= fuel)%nat ->
  exists result sent,
    search_github fuel = Some (result, sent) /\
    forall i, (i < length sent)%nat ->
      Z.of_nat (length (fetched_items (take i sent))) < limit.
Proof.
  intros Hfuel.
  destruct (search_github_run fuel Hfuel) as (ex & sent & Hrun & Heq).
  exists (result_of ex), sent. split; [exact Heq|].
  intros i Hi. by apply (loop_run_below_limit _ _ _ _ Hrun i) in Hi.
Qed.

(** X7: when no request is answered 401, descriptors with the same star
    count come back in the order in which they were read from the pages of
    the service. *)
Theorem search_keeps_order_of_equal_stars (fuel : nat) :
  (10 <= fuel)%nat ->
  0 <= limit ->
  exists result sent,
    search_github fuel = Some (result, sent) /\
    (answered_401 sent = false ->
     forall k,
       filter (fun r => stars r = k) result
       = filter (fun r => stars r = k)
           (map descriptor_of
              (take (Z.to_nat limit) (fetched_items sent)))).
Proof.
  intros Hfuel Hlimit.
  destruct (search_github_run fuel Hfuel) as (ex & sent & Hrun & Heq).
  exists (result_of ex), sent. split; [exact Heq|].
  intros Hno k.
  rewrite (loop_run_exit _ _ _ _ Hrun), result_of_exit, Hno by done.
  apply SearchFacts.sort_by_stars_reverse_stable.
Qed.

(** X8: if the service honours the page size of 100, a search returns at
    most 1000 descriptors, however many were requested. *)
Theorem search_at_most_1000_results (fuel : nat) :
  (10 <= fuel)%nat ->
  (forall req, (length (page_items (api req)) <= 100)%nat) ->
  exists result sent,
    search_github fuel = Some (result, sent) /\
    (length result <= 1000)%nat.
Proof.
  intros Hfuel Hpage.
  destruct (decide (limit <= 0)) as [Hle|Hgt].
  { exists [], []. split; [by apply search_github_nonpositive|simpl; lia]. }
  destruct (search_github_run fuel Hfuel) as (ex & sent & Hrun & Heq).
  exists (result_of ex), sent. split; [exact Heq|].
  rewrite (loop_run_exit _ _ _ _ Hrun), result_of_exit by lia.
  destruct (answered_401 sent); [simpl; lia|].
  rewrite (Permutation_length (SearchFacts.sort_by_stars_reverse_perm _)).
  rewrite length_map, length_take.
  pose proof (fetched_items_length sent Hpage) as Hlen.
  pose proof (loop_run_length _ _ _ _ Hrun) as Hten.
  unfold pages_left in Hten. simpl in Hten. lia.
Qed.

End Facts.

(** *** Concrete runs *)

Import Examples.

Lemma search_nonpositive_limit_asks_nothing_witness :
  search_github (py "x") 0 [] api_endless 3 = Some ([], []).
Proof.
  apply (search_nonpositive_limit_asks_nothing (py "x") 0 [] api_endless 3).
  lia.
Defined.

Lemma search_requests_are_consecutive_pages_witness :
  exists result sent,
    search_github (py "x") 3 [] api_endless 10 = Some (result, sent) /\
    sent = map (make_request (py "x") []) (pages_from 1 (length sent)).
Proof.
  apply (search_requests_are_consecutive_pages (py "x") 3 [] api_endless 10).
  lia.
Defined.


Lemma search_never_exceeds_limit_witness :
  exists result sent,
    search_github (py "x") 2 [] api_unsorted 10 = Some (result, sent) /\
    Z.of_nat (length result) <= 2.
Proof.
  apply (search_never_exceeds_limit (py "x") 2 [] api_unsorted 10); lia.
Defined.

Lemma search_stops_at_unproductive_page_witness :
  exists result sent,
    search_github (py "x") 5 [] api_unsorted 10 = Some (result, sent) /\
    forall i req,
      sent !! i = Some req -> page_items (api_unsorted req) = [] ->
      length sent = S i.
Proof.
  apply (search_stops_at_unproductive_page (py "x") 5 [] api_unsorted 10).
  lia.
Defined.

Lemma search_asks_only_below_limit_witness :
  exists result sent,
    search_github (py "x") 3 [] api_endless 10 = Some (result, sent) /\
    forall i, (i < length sent)%nat ->
      Z.of_nat (length (fetched_items api_endless (take i sent))) < 3.
Proof.
  apply (search_asks_only_below_limit (py "x") 3 [] api_endless 10). lia.
Defined.

Lemma search_keeps_order_of_equal_stars_witness :
  exists result sent,
    search_github (py "x") 3 [] Samples.api_equal_stars 10
    = Some (result, sent) /\
    (answered_401 Samples.api_equal_stars sent = false ->
     forall k,
       filter (fun r => stars r = k) result
       = filter (fun r => stars r = k)
           (map descriptor_of
              (take (Z.to_nat 3)
                 (fetched_items Samples.api_equal_stars sent)))).
Proof.
  apply (search_keeps_order_of_equal_stars (py "x") 3 []
           Samples.api_equal_stars 10); lia.
Defined.

(** The two repositories with 5 stars stay in the order of the page,
    behind the one with 9. *)
Example search_equal_stars_in_page_order :
  fst <$> search_github (py "x") 3 [] Samples.api_equal_stars 10
  = Some [descriptor_of (item "top" "o" 9);
          descriptor_of (item "first" "o" 5);
          descriptor_of (item "second" "o" 5)].
Proof. vm_compute. reflexivity. Qed.

(** An element without ["clone_url"] ends the search: the item before it
    is kept, the one after it is never read, no further page is asked. *)
Example search_stops_at_broken_item :
  search_github (py "x") 3 [] Samples.api_broken_item 10
  = Some ([descriptor_of (item "good" "o" 8)], [make_request (py "x") [] 1]).
Proof. vm_compute. reflexivity. Qed.

Lemma search_at_most_1000_results_witness :
  exists result sent,
    search_github (py "x") 5000 [] api_endless 10 = Some (result, sent) /\
    (length result <= 1000)%nat.
Proof.
  apply (search_at_most_1000_results (py "x") 5000 [] api_endless 10).
  - lia.
  - intros req. simpl. lia.
Defined.

(** Five items were wanted, the second page is empty: two requests. *)
Example search_stops_after_empty_page :
  (length ∘ snd <$> search_github (py "x") 5 [] api_unsorted 10) = Some 2%nat.
Proof. vm_compute. reflexivity. Qed.

End RunFacts.

(** ** The result of a search *)

Module ResultFacts.

Import Search Runs.


Section Facts.

Variable query : str.
Variable limit : Z.
Variable token : str.
Variable api : request -> response.




End Facts.

Import Examples.


Example search_first_page_suffices :
  search_github (py "x") 2 (py "bad") api_401_on_page_2 10
  = Some ([high; low], [make_request (py "x") (py "bad") 1]).
Proof. vm_compute. reflexivity. Qed.

End ResultFacts.


(** ** More on sanitization *)

Module SanitizeMore.

Import Sanitize.

Section Facts.

Variable isalnum : char -> bool.

Lemma kept_underscore : kept isalnum (chr "_") = true.
Proof. unfold kept. by rewrite N.eqb_refl, orb_true_r. Qed.

Lemma sanitize_char_kept (c : char) :
  kept isalnum (sanitize_char isalnum c) = true.
Proof.
  unfold sanitize_char. destruct (kept isalnum c) eqn:E; [done|].
  apply kept_underscore.
Qed.

Lemma sanitize_char_fixed (c : char) :
  kept isalnum c = true -> sanitize_char isalnum c = c.
Proof. intros Hk. unfold sanitize_char. by rewrite Hk. Qed.

(** X9: sanitizing is idempotent: a sanitized name is left unchanged by
    a second pass. *)
Theorem clean_filename_idempotent (text : str) :
  clean_filename isalnum (clean_filename isalnum text)
  = clean_filename isalnum text.
Proof.
  rewrite !SanitizeFacts.clean_filename_map, map_map.
  apply map_ext. intros c.
  apply sanitize_char_fixed, sanitize_char_kept.
Qed.

(** X10: a sanitized name has the length of the text it comes from and
    consists only of alphanumeric characters, underscores and hyphens. *)
Theorem clean_filename_only_kept_characters (text : str) :
  length (clean_filename isalnum text) = length text /\
  Forall (fun c => kept isalnum c = true) (clean_filename isalnum text).
Proof.
  rewrite SanitizeFacts.clean_filename_map. split; [apply length_map|].
  induction text as [|c text IH]; cbn [map]; constructor;
    [apply sanitize_char_kept|exact IH].
Qed.

(** X11: a text made only of alphanumeric characters, underscores and
    hyphens is its own sanitized form. *)
Theorem clean_filename_fixes_safe_names (text : str) :
  Forall (fun c => kept isalnum c = true) text ->
  clean_filename isalnum text = text.
Proof.
  intros Hall. rewrite SanitizeFacts.clean_filename_map.
  induction Hall as [|c text Hc Hall IH]; [done|].
  cbn [map]. by rewrite sanitize_char_fixed, IH.
Qed.

(** X12: sanitization is not injective: a character outside the kept set
    and an underscore at the same place give the same sanitized name. *)
Theorem clean_filename_collides_with_underscore (before after : str)
    (c : char) :
  kept isalnum c = false ->
  clean_filename isalnum (before ++ c :: after)
  = clean_filename isalnum (before ++ chr "_" :: after).
Proof.
  intros Hc. rewrite !SanitizeFacts.clean_filename_app.
  rewrite !SanitizeFacts.clean_filename_cons. do 2 f_equal.
  unfold sanitize_char. rewrite Hc, kept_underscore. done.
Qed.

End Facts.

Lemma clean_filename_fixes_safe_names_witness :
  clean_filename ascii_isalnum (py "hello-world_2")
  = py "hello-world_2".
Proof.
  apply (clean_filename_fixes_safe_names ascii_isalnum).
  repeat constructor.
Defined.

Lemma clean_filename_collides_with_underscore_witness :
  clean_filename ascii_isalnum (py "my" ++ chr "." :: py "repo")
  = clean_filename ascii_isalnum (py "my" ++ chr "_" :: py "repo").
Proof.
  apply (clean_filename_collides_with_underscore ascii_isalnum).
  reflexivity.
Defined.

End SanitizeMore.

(** ** More on a fetch *)

Module CloneMore.

Import Search Clone.

Section Facts.

Variable isalnum : char -> bool.
Variable WORK_DIR : path.
Variable environ : gmap str str.
Variable subprocess_run : run_call -> gset path -> run_result * gset path.
Variable rmtree_ignore_errors : path -> gset path -> gset path.

Local Abbreviation target_path := (target_path isalnum WORK_DIR).
Local Abbreviation git_clone_call :=
  (git_clone_call isalnum WORK_DIR environ).
Local Abbreviation clone_single_repo :=
  (clone_single_repo isalnum WORK_DIR environ subprocess_run
     rmtree_ignore_errors).

(** X13: a fetch starts at most one child process.  When it starts one,
    it is [git clone --depth 1 <url> <target>], bounded by 180 seconds,
    with its exit status checked, with [GIT_TERMINAL_PROMPT] set to [0]
    and every other environment variable inherited. *)
Theorem clone_starts_at_most_one_git (repo_info : repo) (token : str)
    (w : world) :
  calls (clone_single_repo repo_info token w).2 = calls w \/
  exists call,
    calls (clone_single_repo repo_info token w).2 = calls w ++ [call] /\
    args call = [py "git"; py "clone"; py "--depth"; py "1";
                 auth_url repo_info token;
                 path_str (target_path repo_info)] /\
    timeout call = 180 /\
    check call = true /\
    env call !! py "GIT_TERMINAL_PROMPT" = Some (py "0") /\
    (forall k, k <> py "GIT_TERMINAL_PROMPT" ->
       env call !! k = environ !! k).
Proof.
  destruct (decide (target_path repo_info ∈ fs w)) as [Hin|Hnotin].
  - left. by rewrite CloneFacts.clone_existing.
  - right. exists (git_clone_call repo_info token).
    split; [by apply CloneFacts.clone_calls_git_once|].
    cbn [Clone.git_clone_call args timeout check env].
    repeat split.
    + apply lookup_insert_eq.
    + intros k Hk. by apply lookup_insert_ne.
Qed.

(** X14: two descriptors whose names and owners have the same sanitized
    forms share one target directory: once it exists, the fetch of the
    other descriptor returns [None] and starts no child process. *)
Theorem colliding_descriptor_is_skipped (first second : repo) (token : str)
    (w : world) :
  Sanitize.clean_filename isalnum (name first)
  = Sanitize.clean_filename isalnum (name second) ->
  Sanitize.clean_filename isalnum (owner first)
  = Sanitize.clean_filename isalnum (owner second) ->
  target_path first ∈ fs w ->
  clone_single_repo second token w = (None, w).
Proof.
  intros Hname Howner Hin. apply CloneFacts.clone_existing.
  unfold Clone.target_path in *.
  rewrite CloneFacts.folder_name_parts in *.
  by rewrite <- Hname, <- Howner.
Qed.

(** X15: after a retrieval that exits with status 0 the fetch returns
    its descriptor and, if a [.git] directory is there, asks for its
    removal with errors ignored; none is left whenever that removal takes
    effect. *)
Theorem successful_clone_drops_git_directory (repo_info : repo)
    (token : str) (w : world) (fs1 : gset path) :
  target_path repo_info ∉ fs w ->
  subprocess_run (git_clone_call repo_info token) (fs w) = (Exited 0, fs1) ->
  (clone_single_repo repo_info token w).1 = Some repo_info /\
  (target_path repo_info ++ [py ".git"]
     ∉ rmtree_ignore_errors (target_path repo_info ++ [py ".git"]) fs1 ->
   target_path repo_info ++ [py ".git"]
     ∉ fs (clone_single_repo repo_info token w).2).
Proof.
  intros Hnotin Hrun.
  rewrite (CloneFacts.clone_succeeded _ _ _ _ _ _ _ _ _ Hnotin Hrun).
  cbn [fst snd fs]. split; [done|].
  intros Hgone. unfold exists_. case_bool_decide; done.
Qed.

(** X16: a retrieval that fails without leaving a target directory
    leaves the filesystem exactly as [git] left it: nothing is removed. *)
Theorem failed_clone_without_directory_removes_nothing (repo_info : repo)
    (token : str) (w : world) (result : run_result) (fs1 : gset path) :
  target_path repo_info ∉ fs w ->
  subprocess_run (git_clone_call repo_info token) (fs w) = (result, fs1) ->
  retrieval_fails result ->
  target_path repo_info ∉ fs1 ->
  clone_single_repo repo_info token w
  = (None, {| fs := fs1;
              calls := calls w ++ [git_clone_call repo_info token] |}).
Proof.
  intros Hnotin Hrun Hfail Hnone.
  rewrite (CloneFacts.clone_failed _ _ _ _ _ _ _ _ _ _ Hnotin Hrun Hfail).
  unfold exists_. by rewrite bool_decide_eq_false_2.
Qed.

End Facts.

(** *** Concrete runs *)

Import Examples Samples.

Lemma dotted_target_cloned :
  target_path Sanitize.ascii_isalnum work_dir dotted ∈ fs dotted_world.
Proof.
  change (target_path Sanitize.ascii_isalnum work_dir dotted)
    with (work_dir ++ [py "my_repo_bob"]).
  unfold dotted_world. cbn [fs]. by apply elem_of_singleton.
Qed.

Lemma colliding_descriptor_is_skipped_witness :
  clone_single_repo Sanitize.ascii_isalnum work_dir ∅ git_succeeds
    rmtree_works underscored (py "TOKEN") dotted_world
  = (None, dotted_world).
Proof.
  apply (colliding_descriptor_is_skipped Sanitize.ascii_isalnum work_dir ∅
           git_succeeds rmtree_works dotted underscored (py "TOKEN")
           dotted_world).
  - reflexivity.
  - reflexivity.
  - exact dotted_target_cloned.
Defined.

Lemma successful_clone_drops_git_directory_witness :
  (clone_single_repo Sanitize.ascii_isalnum work_dir ∅ git_succeeds
     rmtree_works hello (py "TOKEN") empty_world).1 = Some hello /\
  (target_path Sanitize.ascii_isalnum work_dir hello ++ [py ".git"]
     ∉ rmtree_works
         (target_path Sanitize.ascii_isalnum work_dir hello ++ [py ".git"])
         (∅ ∪ {[ work_dir ++ [py "hello_octocat"] ]}
            ∪ {[ work_dir ++ [py "hello_octocat"; py ".git"] ]}) ->
   target_path Sanitize.ascii_isalnum work_dir hello ++ [py ".git"]
     ∉ fs (clone_single_repo Sanitize.ascii_isalnum work_dir ∅ git_succeeds
             rmtree_works hello (py "TOKEN") empty_world).2).
Proof.
  apply (successful_clone_drops_git_directory Sanitize.ascii_isalnum
           work_dir ∅ git_succeeds rmtree_works hello (py "TOKEN")
           empty_world).
  - exact CloneFacts.hello_target_fresh.
  - reflexivity.
Defined.

Lemma failed_clone_without_directory_removes_nothing_witness :
  clone_single_repo Sanitize.ascii_isalnum work_dir ∅ git_unreachable
    rmtree_works hello (py "TOKEN") empty_world
  = (None,
     {| fs := ∅;
        calls := calls empty_world
                 ++ [git_clone_call Sanitize.ascii_isalnum work_dir ∅ hello
                       (py "TOKEN")] |}).
Proof.
  apply (failed_clone_without_directory_removes_nothing
           Sanitize.ascii_isalnum work_dir ∅ git_unreachable rmtree_works
           hello (py "TOKEN") empty_world (Exited 128) ∅).
  - exact CloneFacts.hello_target_fresh.
  - reflexivity.
  - simpl. lia.
  - exact CloneFacts.hello_target_fresh.
Defined.

End CloneMore.

(** ** More on the report *)

Module ReportMore.

Import Search Report.

Lemma omap_id_length {A} (l : list (option A)) :
  (length (omap id l) <= length l)%nat.
Proof.
  induction l as [|[x|] l IH]; cbn [omap list_omap id length]; lia.
Qed.

Lemma count_successes_range (results : list (option repo)) :
  0 <= count_successes results <= Z.of_nat (length results).
Proof.
  rewrite ReportFacts.count_successes_omap.
  pose proof (omap_id_length results). lia.
Qed.

Lemma last_app_nl (s : str) : last (s ++ nl) = Some 10%N.
Proof. unfold nl. by rewrite last_snoc. Qed.

(** X17: the success counter is the number of fetches that returned a
    descriptor; it lies between 0 and the number of fetches. *)
Theorem count_successes_counts_descriptors
    (results : list (option repo)) :
  count_successes results = Z.of_nat (length (omap id results)) /\
  0 <= count_successes results <= Z.of_nat (length results).
Proof.
  split; [apply ReportFacts.count_successes_omap
         |apply count_successes_range].
Qed.

(** X18: every piece written to the report ends with a line feed. *)
Theorem report_lines_end_with_newline (timestamp user_query : str)
    (user_limit : Z) (repos : list repo) (results : list (option repo)) :
  Forall (fun line => last line = Some 10%N)
    (report timestamp user_query user_limit repos results).
Proof.
  unfold report, write_report. apply Forall_app. split.
  - repeat constructor; rewrite ?app_assoc; apply last_app_nl.
  - induction repos as [|r repos IH]; cbn [map]; constructor; [|exact IH].
    unfold report_line. rewrite !app_assoc. apply last_app_nl.
Qed.

End ReportMore.

(** ** The order of a search result *)

Module OrderFacts.

Import Search Runs.

Lemma StronglySorted_take {A} (R : A -> A -> Prop) (l : list A) (n : nat) :
  StronglySorted R l -> StronglySorted R (take n l).
Proof.
  intros Hs. revert n.
  induction Hs as [|x l Hs IH Hall]; intros [|n]; cbn [take];
    try constructor.
  - apply IH.
  - by apply Forall_take.
Qed.

Lemma slice_to_sorted (l : list repo) (stop : Z) :
  StronglySorted by_stars_desc l ->
  StronglySorted by_stars_desc (slice_to l stop).
Proof.
  intros Hs. unfold slice_to.
  destruct (stop <? 0); by apply StronglySorted_take.
Qed.

Section Facts.

Variable query : str.
Variable limit : Z.
Variable token : str.
Variable api : request -> response.

Lemma search_github_sorted (fuel : nat) (result : list repo)
    (sent : list request) :
  search_github query limit token api fuel = Some (result, sent) ->
  StronglySorted by_stars_desc result.
Proof.
  intros H.
  apply RunFacts.search_github_inv in H as (ex & Hrun & ->).
  rewrite (RunFacts.loop_run_exit _ _ _ _ _ _ _ _ Hrun).
  destruct (answered_401 api sent); cbn [result_of]; [constructor|].
  apply slice_to_sorted, SearchFacts.sort_by_stars_reverse_sorted.
Qed.

(** X23: for every requested count and every behaviour of the service,
    the list a search returns is in order of non-increasing star count. *)
Theorem search_result_always_sorted (fuel : nat) :
  (10 <= fuel)%nat ->
  exists result sent,
    search_github query limit token api fuel = Some (result, sent) /\
    StronglySorted by_stars_desc result.
Proof.
  intros Hfuel.
  destruct (SearchFacts.search_github_terminates query limit token api
              fuel Hfuel) as [[result sent] Hsearch].
  exists result, sent. split; [done|]. by eapply search_github_sorted.
Qed.

End Facts.

Lemma search_result_always_sorted_witness :
  exists result sent,
    search_github (py "x") 3 [] Examples.api_unsorted 10
    = Some (result, sent) /\
    StronglySorted by_stars_desc result.
Proof.
  apply (search_result_always_sorted (py "x") 3 [] Examples.api_unsorted 10).
  lia.
Defined.

End OrderFacts.

(** ** The main program *)

Module MainFacts.

Import Search Clone Report Runs Main.

Section Facts.

Variable isalnum : char -> bool.
Variable isspace : char -> bool.
Variable py_int : str -> option Z.
Variable api : request -> response.
Variable WORK_DIR : path.
Variable environ : gmap str str.
Variable subprocess_run : run_call -> gset path -> run_result * gset path.
Variable rmtree_ignore_errors : path -> gset path -> gset path.
Variable world_at : nat -> world.

Local Abbreviation strip := (strip isspace).
Local Abbreviation lstrip := (lstrip isspace).
Local Abbreviation pool_results :=
  (pool_results isalnum WORK_DIR environ subprocess_run rmtree_ignore_errors
     world_at).
Local Abbreviation main :=
  (main isalnum isspace py_int api WORK_DIR environ subprocess_run
     rmtree_ignore_errors world_at).
Local Abbreviation user_limit_of count_line :=
  (match py_int (strip count_line) with Some n => n | None => 10 end).

Lemma lstrip_blank (s : str) :
  Forall (fun c => isspace c = true) s -> lstrip s = [].
Proof.
  induction 1 as [|c s Hc Hall IH]; [done|]. cbn [Main.lstrip].
  by rewrite Hc.
Qed.

Lemma strip_blank (s : str) :
  Forall (fun c => isspace c = true) s -> strip s = [].
Proof.
  intros Hall. unfold Main.strip. rewrite (lstrip_blank s) by done.
  reflexivity.
Qed.

Lemma clone_outcome_cases (r : repo) (token : str) (w : world) :
  (clone_single_repo isalnum WORK_DIR environ subprocess_run
     rmtree_ignore_errors r token w).1 = Some r \/
  (clone_single_repo isalnum WORK_DIR environ subprocess_run
     rmtree_ignore_errors r token w).1 = None.
Proof.
  unfold clone_single_repo. destruct (exists_ _ _); [by right|].
  destruct (subprocess_run _ _) as [result fs1].
  destruct (raises _ result); [by right|by left].
Qed.

(** X24: the executor delivers one outcome per descriptor, in the order
    of the descriptors, and the outcome at a position is either [None] or
    the descriptor at that position. *)
Theorem pool_results_follow_descriptors (token : str) (repos : list repo) :
  length (pool_results token repos) = length repos /\
  forall i r,
    repos !! i = Some r ->
    pool_results token repos !! i = Some (Some r) \/
    pool_results token repos !! i = Some None.
Proof.
  unfold Main.pool_results. split; [apply length_imap|].
  intros i r Hi. rewrite list_lookup_imap, Hi. cbn [fmap option_fmap option_map].
  destruct (clone_outcome_cases r token (world_at i)) as [-> | ->]; auto.
Qed.

(** X19: when the program runs to its end, the report lists at least one
    and at most the requested number of descriptors, and the number of
    downloads it states lies between 0 and the number of descriptors
    listed. *)
Theorem main_report_is_consistent (git : probe)
    (token_line query_line count_line timestamp : str) (fuel : nat)
    (lines : list str) (zip : str) :
  main git token_line query_line count_line timestamp fuel
  = Some (Finished lines zip) ->
  exists repos success_count,
    lines = write_report timestamp (strip query_line)
              (user_limit_of count_line) success_count repos /\
    repos <> [] /\
    Z.of_nat (length repos) <= user_limit_of count_line /\
    0 <= success_count <= Z.of_nat (length repos) /\
    zip = zip_filename isalnum (strip query_line) timestamp.
Proof.
  unfold Main.main. intros H.
  destruct (check_git_installed git) as [[|]|]; try discriminate.
  destruct (truthy (strip query_line)); try discriminate. cbn [negb] in H.
  destruct (search_github _ _ _ _ _) as [[repos sent]|] eqn:Hsearch;
    try discriminate.
  destruct repos as [|r repos]; inversion H; subst; clear H.
  exists (r :: repos), (count_successes (pool_results (strip token_line)
                                            (r :: repos))).
  split; [reflexivity|]. split; [done|].
  assert (Hpos : 0 < user_limit_of count_line).
  { destruct (decide (user_limit_of count_line <= 0)) as [Hle|]; [|lia].
    rewrite RunFacts.search_github_nonpositive in Hsearch by done.
    discriminate. }
  split.
  - apply (RunFacts.search_github_length _ _ _ _ _ _ _ Hsearch). lia.
  - split; [|reflexivity].
    pose proof (ReportMore.count_successes_range
                  (pool_results (strip token_line) (r :: repos))) as Hr.
    assert (Hlen : length (pool_results (strip token_line) (r :: repos))
                   = length (r :: repos))
      by (unfold Main.pool_results; apply length_imap).
    by rewrite Hlen in Hr.
Qed.


(** X20: a count of zero or less makes the program end with exit status 0
    before any download: no descriptor is found. *)
Theorem main_nonpositive_count_exits_0 (git : probe)
    (token_line query_line count_line timestamp : str) (fuel : nat)
    (n : Z) :
  check_git_installed git = Some true ->
  truthy (strip query_line) = true ->
  py_int (strip count_line) = Some n ->
  n <= 0 ->
  main git token_line query_line count_line timestamp fuel
  = Some (SysExit 0).
Proof.
  intros Hgit Hq Hn Hle. unfold Main.main.
  rewrite Hgit, Hq, Hn. cbn [negb].
  by rewrite RunFacts.search_github_nonpositive.
Qed.

(** X21: a query made of white space only is refused with exit status 1,
    whatever the other answers are. *)
Theorem main_rejects_blank_query (git : probe)
    (token_line query_line count_line timestamp : str) (fuel : nat) :
  check_git_installed git = Some true ->
  Forall (fun c => isspace c = true) query_line ->
  main git token_line query_line count_line timestamp fuel
  = Some (SysExit 1).
Proof.
  intros Hgit Hblank. unfold Main.main.
  by rewrite Hgit, strip_blank.
Qed.

(** X22: when a request of the search is answered 401 the program ends
    with exit status 0: nothing is downloaded and no report is written. *)
Theorem main_invalid_token_exits_0 (git : probe)
    (token_line query_line count_line timestamp : str) (fuel : nat)
    (repos : list repo) (sent : list request) :
  check_git_installed git = Some true ->
  truthy (strip query_line) = true ->
  search_github (strip query_line) (user_limit_of count_line)
    (strip token_line) api fuel = Some (repos, sent) ->
  answered_401 api sent = true ->
  main git token_line query_line count_line timestamp fuel
  = Some (SysExit 0).
Proof.
  intros Hgit Hq Hsearch H401. unfold Main.main.
  rewrite Hgit, Hq. cbn [negb]. rewrite Hsearch.
  by rewrite (RunFacts.search_github_401 _ _ _ _ _ _ _ Hsearch H401).
Qed.

End Facts.

(** *** Concrete runs *)

Import Examples Samples.

Lemma main_report_is_consistent_witness :
  exists lines zip,
    run_main api_unsorted (py " tok ") (py " bots ") (py "2")
    = Some (Finished lines zip) /\
    exists repos success_count,
      lines = write_report (py "2024-05-01_10h30m")
                (strip ascii_isspace (py " bots ")) 2 success_count repos /\
      repos <> [] /\
      Z.of_nat (length repos) <= 2 /\
      0 <= success_count <= Z.of_nat (length repos) /\
      zip = zip_filename Sanitize.ascii_isalnum
              (strip ascii_isspace (py " bots ")) (py "2024-05-01_10h30m").
Proof.
  destruct (run_main api_unsorted (py " tok ") (py " bots ") (py "2"))
    as [[code| |lines zip]|] eqn:Hrun;
    try (vm_compute in Hrun; discriminate).
  exists lines, zip. split; [reflexivity|].
  exact (main_report_is_consistent Sanitize.ascii_isalnum ascii_isspace
           ascii_int api_unsorted work_dir ∅ git_succeeds rmtree_works
           (fun _ => empty_world) (ProbeExited 0) (py " tok ") (py " bots ")
           (py "2") (py "2024-05-01_10h30m") 10 lines zip Hrun).
Defined.


Lemma main_nonpositive_count_exits_0_witness :
  run_main api_unsorted (py "tok") (py "bots") (py "-2")
  = Some (SysExit 0).
Proof.
  apply (main_nonpositive_count_exits_0 Sanitize.ascii_isalnum
           ascii_isspace ascii_int api_unsorted work_dir ∅ git_succeeds
           rmtree_works (fun _ => empty_world) (ProbeExited 0) (py "tok")
           (py "bots") (py "-2") (py "2024-05-01_10h30m") 10 (-2)).
  - reflexivity.
  - reflexivity.
  - reflexivity.
  - lia.
Defined.

Lemma main_rejects_blank_query_witness :
  run_main api_unsorted (py "tok") (py "   ") (py "5") = Some (SysExit 1).
Proof.
  apply (main_rejects_blank_query Sanitize.ascii_isalnum ascii_isspace
           ascii_int api_unsorted work_dir ∅ git_succeeds rmtree_works
           (fun _ => empty_world) (ProbeExited 0) (py "tok") (py "   ")
           (py "5") (py "2024-05-01_10h30m") 10).
  - reflexivity.
  - repeat constructor.
Defined.

Lemma main_invalid_token_exits_0_witness :
  run_main api_401_on_page_2 (py "bad") (py "bots") (py "5")
  = Some (SysExit 0).
Proof.
  apply (main_invalid_token_exits_0 Sanitize.ascii_isalnum ascii_isspace
           ascii_int api_401_on_page_2 work_dir ∅ git_succeeds rmtree_works
           (fun _ => empty_world) (ProbeExited 0) (py "bad") (py "bots")
           (py "5") (py "2024-05-01_10h30m") 10 []
           [make_request (py "bots") (py "bad") 1;
            make_request (py "bots") (py "bad") 2]).
  - reflexivity.
  - reflexivity.
  - vm_compute. reflexivity.
  - vm_compute. reflexivity.
Defined.

End MainFacts.
